(** * Auto-decoder training script ([train/train.py]): a shallow embedding

    The script trains a small fully connected decoder jointly with one latent
    code per shape, exports the decoder, and labels a grid of latent points by
    nearest training image.

    Conventions of the embedding.
    - Tensor entries (IEEE floats in TensorFlow and NumPy) are idealised as
      real numbers [R]; [float('inf')] gets a constructor of its own.
    - A rank-1 array is a [list R], a rank-2 array a list of rows.  A batch of
      one row, which is all the script ever feeds to the decoder, is
      represented by that row.
    - Module-level variables that the script mutates ([latent_codes], the
      decoder weights, the optimizer slots, [loss_history], [encoded_points],
      the console) are fields of an explicit [state] record.
    - Random draws and automatic differentiation are inputs of the model: the
      initial weights and the gradient oracle are parameters. *)

From Stdlib Require Import String.
From Stdlib Require Import Reals Lra Lia ZArith Bool PeanoNat List Sorted.
Import ListNotations.

Set Implicit Arguments.

(** ** Python exceptions *)

Module Py.

(** The exceptions that can escape from the calls of the script:
    [ZeroDivisionError], an arithmetic error raised by the interpreter, with
    its message; [ValueError], which the libraries raise when they reject an
    argument (its message, which quotes the offending values, is left out). *)
Inductive exn : Type :=
| ZeroDivisionError (msg : string)
| ValueError.

Inductive result (A : Type) : Type :=
| Ok (a : A)
| Raise (e : exn).

Arguments Ok {A} a.
Arguments Raise {A} e.

(** An error that rejects the configuration, as opposed to an arithmetic
    error met while computing. *)
Definition configuration_error (e : exn) : Prop :=
  match e with
  | ValueError => True
  | ZeroDivisionError _ => False
  end.

End Py.

(** ** Arrays *)

Module Np.

Local Open Scope R_scope.

Abbreviation vector := (list R).
Abbreviation matrix := (list (list R)).

(** Elementwise combination of two arrays of the same shape. *)
Fixpoint zip_with {A B C : Type} (f : A -> B -> C) (xs : list A) (ys : list B)
  : list C :=
  match xs, ys with
  | x :: xs', y :: ys' => f x y :: zip_with f xs' ys'
  | _, _ => []
  end.

Definition zeros (n : nat) : vector := repeat 0 n.

(** Two rank-2 arrays have the same shape: as many rows, of the same
    lengths. *)
Definition same_shape (a b : matrix) : Prop :=
  Forall2 (fun r r' => length r = length r') a b.

(** [np.sum] of a rank-1 and of a rank-2 array. *)
Definition sum (v : vector) : R := fold_right Rplus 0 v.
Definition sum2 (m : matrix) : R := sum (map sum m).

(** [a.reshape(rows, cols)] of a flat array, row-major. *)
Fixpoint reshape (rows cols : nat) (flat : vector) : matrix :=
  match rows with
  | O => []
  | S r => firstn cols flat :: reshape r cols (skipn cols flat)
  end.

(** [a.reshape((len(a), prod(shape[1:])))]: every image flattened row-major. *)
Definition flatten (m : matrix) : vector := concat m.

(** [np.linspace(start, stop, num)]: [num] evenly spaced samples,
    [arange(num) * step + start] with [step = (stop - start) / (num - 1)],
    the last sample then overwritten with [stop]. *)
Definition linspace (start stop : R) (num : nat) : vector :=
  match num with
  | O => []
  | S O => [start]
  | S (S k as div) =>
      let step := (stop - start) / INR div in
      map (fun i => INR i * step + start) (seq 0 div) ++ [stop]
  end.

End Np.

(** ** The Keras layers, loss and optimizer the script uses *)

Module Keras.

Import Py Np.
Local Open Scope R_scope.

Inductive activation : Type := relu | sigmoid.

Definition relu_fn (x : R) : R := Rmax x 0.
Definition sigmoid_fn (x : R) : R := 1 / (1 + exp (- x)).

Definition activate (a : activation) : R -> R :=
  match a with
  | relu => relu_fn
  | sigmoid => sigmoid_fn
  end.

(** [layers.Dense(units, activation)] once built: the kernel has one row per
    input feature and [units] columns. *)
Record Dense : Type := mkDense {
  units : nat;
  act : activation;
  kernel : matrix;
  bias : vector
}.

Definition vec_add : vector -> vector -> vector := zip_with Rplus.
Definition scale (c : R) (v : vector) : vector := map (Rmult c) v.

(** [matmul(x, kernel)] for a single input row [x]. *)
Definition matmul (u : nat) (x : vector) (k : matrix) : vector :=
  fold_left (fun acc xr => vec_add acc (scale (fst xr) (snd xr)))
            (combine x k) (zeros u).

Definition pre_activation (l : Dense) (x : vector) : vector :=
  vec_add (matmul (units l) x (kernel l)) (bias l).

Definition dense_call (l : Dense) (x : vector) : vector :=
  map (activate (act l)) (pre_activation l x).

Definition Sequential := list Dense.

Definition call (model : Sequential) (x : vector) : vector :=
  fold_left (fun h l => dense_call l h) model x.

(** [model.predict] evaluates the same forward pass. *)
Definition predict (model : Sequential) (x : vector) : vector := call model x.

(** A layer is built for [in_dim] input features. *)
Definition built (in_dim : nat) (l : Dense) : Prop :=
  length (kernel l) = in_dim /\
  Forall (fun row => length row = units l) (kernel l) /\
  length (bias l) = units l.

(** The model is the stack described by [spec] (width and activation of every
    layer), built on [in_dim] input features. *)
Fixpoint built_from (in_dim : nat) (spec : list (nat * activation))
         (model : Sequential) : Prop :=
  match spec, model with
  | [], [] => True
  | (u, a) :: spec', l :: model' =>
      units l = u /\ act l = a /\ built in_dim l /\ built_from u spec' model'
  | _, _ => False
  end.

(** Fresh layers: the kernel entries come from the (random) initializer, the
    bias starts at zero. *)
Definition dense_build (init : nat -> nat -> R) (in_dim u : nat)
           (a : activation) : Dense :=
  {| units := u;
     act := a;
     kernel := map (fun i => map (fun j => init i j) (seq 0 u)) (seq 0 in_dim);
     bias := zeros u |}.

Fixpoint sequential_build (init : nat -> nat -> nat -> R) (k in_dim : nat)
         (spec : list (nat * activation)) : Sequential :=
  match spec with
  | [] => []
  | (u, a) :: spec' =>
      dense_build (init k) in_dim u a :: sequential_build init (S k) u spec'
  end.

(** [keras.losses.MeanSquaredError()] on a batch of one row: the mean over the
    last axis of the squared differences. *)
Definition squared_difference (y_pred y_true : vector) : vector :=
  zip_with (fun p t => (p - t) * (p - t)) y_pred y_true.

Definition reduce_mean (v : vector) : R := sum v / INR (length v).

Definition MeanSquaredError (y_true y_pred : vector) : R :=
  reduce_mean (squared_difference y_pred y_true).


(** [model.get_weights()] returns the arrays of all layers, kernel before
    bias; [model.set_weights(ws)] stores them back after checking their number
    and shapes against the model's own variables, and raises [ValueError]
    otherwise. *)
Inductive ndarray : Type :=
| Rank1 (v : vector)
| Rank2 (m : matrix).

Definition get_weights (model : Sequential) : list ndarray :=
  flat_map (fun l => [Rank2 (kernel l); Rank1 (bias l)]) model.

Definition has_shape (rows cols : nat) (m : matrix) : bool :=
  (length m =? rows)%nat && forallb (fun row => (length row =? cols)%nat) m.

Fixpoint set_weights (model : Sequential) (ws : list ndarray)
  : result Sequential :=
  match model, ws with
  | [], [] => Ok []
  | l :: model', Rank2 k :: Rank1 b :: ws' =>
      if has_shape (length (kernel l)) (units l) k
         && (length b =? units l)%nat
      then
        match set_weights model' ws' with
        | Ok rest =>
            Ok ({| units := units l; act := act l;
                   kernel := k; bias := b |} :: rest)
        | Raise e => Raise e
        end
      else Raise ValueError
  | _, _ => Raise ValueError
  end.

(** *** [keras.optimizers.Adam]

    Default hyper-parameters except for the learning rate the script passes.
    The step is the one of the Keras implementation: both moment accumulators
    decay on every entry of the variable, the gradient is added where there is
    one, and every entry of the variable then moves by the bias-corrected
    ratio of the moments.  For a sparse gradient this is what the Keras
    documentation of [Adam] announces: momentum is applied to the slices of
    the variable that were not used in the forward pass as well, so that the
    sparse behaviour is the dense one with zeros for the missing rows. *)
Definition beta_1 : R := 0.9.
Definition beta_2 : R := 0.999.
Definition epsilon : R := 1e-7.

Definition adam_lr_t (learning_rate : R) (t : nat) : R :=
  learning_rate * sqrt (1 - beta_2 ^ t) / (1 - beta_1 ^ t).

Definition adam_move (lr_t : R) (x m v : R) : R :=
  x - lr_t * m / (sqrt v + epsilon).

Fixpoint zip_with3 {A B C D : Type} (f : A -> B -> C -> D)
         (xs : list A) (ys : list B) (zs : list C) : list D :=
  match xs, ys, zs with
  | x :: xs', y :: ys', z :: zs' => f x y z :: zip_with3 f xs' ys' zs'
  | _, _, _ => []
  end.

(** Dense gradient, one rank-1 variable. *)
Definition adam_m_dense (m g : vector) : vector :=
  zip_with (fun mi gi => beta_1 * mi + (1 - beta_1) * gi) m g.
Definition adam_v_dense (v g : vector) : vector :=
  zip_with (fun vi gi => beta_2 * vi + (1 - beta_2) * (gi * gi)) v g.
Definition adam_var (lr_t : R) (x m v : vector) : vector :=
  zip_with3 (adam_move lr_t) x m v.

(** Sparse gradient ([tf.IndexedSlices], what the tape returns for a variable
    read through [tf.gather]): rows [values] at positions [indices]. *)
Record IndexedSlices : Type := mkSlices {
  values : matrix;
  indices : list nat
}.

Fixpoint update_row (i : nat) (f : vector -> vector) (m : matrix) : matrix :=
  match m, i with
  | [], _ => []
  | r :: m', O => f r :: m'
  | r :: m', S i' => r :: update_row i' f m'
  end.

Definition scatter_add (m : matrix) (idx : list nat) (updates : matrix)
  : matrix :=
  fold_left (fun acc iu => update_row (fst iu) (fun r => vec_add r (snd iu)) acc)
            (combine idx updates) m.

Definition adam_m_sparse (m : matrix) (g : IndexedSlices) : matrix :=
  scatter_add (map (scale beta_1) m) (indices g)
              (map (scale (1 - beta_1)) (values g)).
Definition adam_v_sparse (v : matrix) (g : IndexedSlices) : matrix :=
  scatter_add (map (scale beta_2) v) (indices g)
              (map (fun r => scale (1 - beta_2) (zip_with Rmult r r)) (values g)).


(** *** Reverse-mode differentiation

    What [tape.gradient] computes for the loss of one sample: the derivative
    of the mean squared error with respect to the prediction, pushed back
    through the layers.  Each layer turns the gradient on its output into the
    gradient on its pre-activation (the derivative of [relu] is 1 where the
    pre-activation is positive and 0 elsewhere), and from there into the
    gradients on its input, its kernel and its bias. *)
Definition activate_grad (a : activation) (pre : R) : R :=
  match a with
  | relu => if Rlt_dec 0 pre then 1 else 0
  | sigmoid => sigmoid_fn pre * (1 - sigmoid_fn pre)
  end.

Definition dense_backward (l : Dense) (x d_out : vector)
  : vector * (matrix * vector) :=
  let d_pre :=
    zip_with (fun d p => d * activate_grad (act l) p) d_out
             (pre_activation l x) in
  (map (fun row => sum (zip_with Rmult row d_pre)) (kernel l),
   (map (fun xi => scale xi d_pre) x, d_pre)).

Fixpoint backward (model : Sequential) (x : vector)
         (d_loss : vector -> vector) : vector * list (matrix * vector) :=
  match model with
  | [] => (d_loss x, [])
  | l :: rest =>
      let '(d_out, grads) := backward rest (dense_call l x) d_loss in
      let '(d_x, g) := dense_backward l x d_out in
      (d_x, g :: grads)
  end.

Definition MeanSquaredError_grad (y_true y_pred : vector) : vector :=
  zip_with (fun p t => 2 * (p - t) / INR (length y_pred)) y_pred y_true.

(** Gradient of [MeanSquaredError target (call model z)] with respect to [z]
    and to the weights of every layer. *)
Definition tape_gradient (model : Sequential) (z target : vector)
  : vector * list (matrix * vector) :=
  backward model z (MeanSquaredError_grad target).

(** Layers all of whose kernel entries are positive, with no negative bias:
    on a positive input every unit of such a stack is active. *)
Definition positive (v : vector) : Prop := Forall (fun c => 0 < c) v.

Definition positive_layer (in_dim : nat) (l : Dense) : Prop :=
  built in_dim l /\ (0 < units l)%nat /\
  Forall positive (kernel l) /\ Forall (fun b => 0 <= b) (bias l).

Fixpoint positive_model (in_dim : nat) (model : Sequential) : Prop :=
  match model with
  | [] => True
  | l :: rest => positive_layer in_dim l /\ positive_model (units l) rest
  end.

(** Width of the output of a model fed [in_dim] features. *)
Definition output_dim (in_dim : nat) (model : Sequential) : nat :=
  fold_left (fun _ l => units l) model in_dim.

End Keras.

(** ** The script *)

Module Script.

Import Py Np Keras.
Local Open Scope R_scope.

Definition LATENT_DIM : nat := 2.

(** The layers [create_decoder] stacks on the latent input
    (train.py, lines 44-56). *)
Definition decoder_layers : list (nat * activation) :=
  [(128, relu); (256, relu); (512, relu); (28 * 28, sigmoid)]%nat.

Definition create_decoder (init : nat -> nat -> nat -> R) : Sequential :=
  sequential_build init 0 LATENT_DIM decoder_layers.

Definition has_architecture (model : Sequential) : Prop :=
  built_from LATENT_DIM decoder_layers model.

Definition learning_rate : R := 0.001.

(** Slots of the optimizer: first and second moments of [latent_codes] and of
    every decoder layer (kernel, bias), and the step counter. *)
Record Adam : Type := mkAdam {
  iterations : nat;
  m_latent : matrix;
  v_latent : matrix;
  m_decoder : list (matrix * vector);
  v_decoder : list (matrix * vector)
}.

(** One console line of the progress report: epoch, epoch count, mean loss. *)
Record progress : Type := mkProgress {
  shown_epoch : nat;
  shown_epochs : nat;
  shown_loss : R
}.

Record state : Type := mkState {
  latent_codes : matrix;
  decoder : Sequential;
  optimizer : Adam;
  loss_history : list R;
  console : list progress;
  encoded_points : list (R * R * Z)
}.

(** [float('inf')] next to the finite distances. *)
Inductive float : Type :=
| Finite (r : R)
| Inf.

Definition lt_float (d : R) (bound : float) : bool :=
  match bound with
  | Inf => true
  | Finite b => if Rlt_dec d b then true else false
  end.

(** Bounds and resolution of the latent grid. *)
Record grid : Type := mkGrid {
  x_min : R; x_max : R;
  y_min : R; y_max : R;
  grid_size : nat
}.

Definition zeros_like (m : matrix) : matrix := map (map (fun _ => 0)) m.

Definition layer_slots (l : Dense) : matrix * vector :=
  (zeros_like (kernel l), map (fun _ => 0) (bias l)).

Section Run.

(** The dataset after normalisation: 28x28 images with their class labels. *)
Variable dataset : list (matrix * Z).

(** [tape.gradient]: derivative of the loss of one sample with respect to its
    latent row and to every decoder layer (kernel, bias).  The results on the
    script hold for any such function; [Keras.tape_gradient] is the one of
    reverse-mode differentiation. *)
Variable gradient :
  Sequential -> vector -> vector -> vector * list (matrix * vector).

Definition x_data : list matrix := map fst dataset.
Definition y_data : list Z := map snd dataset.
Definition x_data_flat : list vector := map flatten x_data.
Definition NUM_SHAPES : nat := length x_data.

(** State at the start of training (lines 59-71): random latent codes, a
    fresh decoder, an optimizer that has not stepped yet. *)
Definition initial_state (normal : nat -> nat -> R)
           (init : nat -> nat -> nat -> R) : state :=
  let codes :=
    map (fun i => map (fun j => normal i j) (seq 0 LATENT_DIM))
        (seq 0 NUM_SHAPES) in
  let dec := create_decoder init in
  {| latent_codes := codes;
     decoder := dec;
     optimizer := {| iterations := 0;
                     m_latent := zeros_like codes;
                     v_latent := zeros_like codes;
                     m_decoder := map layer_slots dec;
                     v_decoder := map layer_slots dec |};
     loss_history := [];
     console := [];
     encoded_points := [] |}.

(** *** Training *)

(** Adam on one decoder layer with its dense gradient. *)
Definition adam_layer (lr_t : R) (l : Dense) (m v g : matrix * vector)
  : Dense * (matrix * vector) * (matrix * vector) :=
  let mk := zip_with adam_m_dense (fst m) (fst g) in
  let vk := zip_with adam_v_dense (fst v) (fst g) in
  let mb := adam_m_dense (snd m) (snd g) in
  let vb := adam_v_dense (snd v) (snd g) in
  ({| units := units l; act := act l;
      kernel := zip_with3 (adam_var lr_t) (kernel l) mk vk;
      bias := adam_var lr_t (bias l) mb vb |},
   (mk, mb), (vk, vb)).

Fixpoint adam_layers (lr_t : R) (model : Sequential)
         (ms vs gs : list (matrix * vector))
  : Sequential * list (matrix * vector) * list (matrix * vector) :=
  match model, ms, vs, gs with
  | l :: model', m :: ms', v :: vs', g :: gs' =>
      let '(l1, m1, v1) := adam_layer lr_t l m v g in
      let '(rest, ms1, vs1) := adam_layers lr_t model' ms' vs' gs' in
      (l1 :: rest, m1 :: ms1, v1 :: vs1)
  | _, _, _, _ => ([], [], [])
  end.

(** [optimizer.apply_gradients(zip(gradients, trainable_vars))] with
    [trainable_vars = [latent_codes] + decoder.trainable_variables]: the whole
    latent table is handed to the optimizer together with its sparse
    gradient. *)
Definition apply_gradients (g_latent : IndexedSlices)
           (g_decoder : list (matrix * vector)) (s : state) : state :=
  let opt := optimizer s in
  let t := S (iterations opt) in
  let lr_t := adam_lr_t learning_rate t in
  let ml := adam_m_sparse (m_latent opt) g_latent in
  let vl := adam_v_sparse (v_latent opt) g_latent in
  let '(dec, md, vd) :=
    adam_layers lr_t (decoder s) (m_decoder opt) (v_decoder opt) g_decoder in
  {| latent_codes := zip_with3 (adam_var lr_t) (latent_codes s) ml vl;
     decoder := dec;
     optimizer := {| iterations := t;
                     m_latent := ml; v_latent := vl;
                     m_decoder := md; v_decoder := vd |};
     loss_history := loss_history s;
     console := console s;
     encoded_points := encoded_points s |}.

(** [tf.gather(latent_codes, [i])]: the batch made of row [i]. *)
Definition gather (table : matrix) (i : nat) : vector := nth i table [].

Definition loss_fn : vector -> vector -> R := MeanSquaredError.

(** [train_step([i], target_image)] (lines 81-101), for a target with as
    many values as the decoder returns.  For a target of another length
    TensorFlow refuses the subtraction in the loss; that error is outside this
    definition, and the theorems about training runs assume flattened images
    of [28 * 28] values. *)
Definition train_step (latent_idx : nat) (target_image : vector) (s : state)
  : R * state :=
  let z := gather (latent_codes s) latent_idx in
  let reconstructed := call (decoder s) z in
  let loss := loss_fn target_image reconstructed in
  let '(g_z, g_decoder) := gradient (decoder s) z target_image in
  (loss,
   apply_gradients {| values := [g_z]; indices := [latent_idx] |} g_decoder s).

(** The sparse gradient this step hands to the optimizer for the latent
    table: one row of values, at position [latent_idx]. *)
Definition latent_gradient (latent_idx : nat) (target_image : vector)
           (s : state) : IndexedSlices :=
  {| values := [fst (gradient (decoder s) (gather (latent_codes s) latent_idx)
                              target_image)];
     indices := [latent_idx] |}.

(** The inner loop of an epoch, [for i in range(NUM_SHAPES)], threading the
    running [epoch_loss] and the state. *)
Definition train_on_shape (acc : R * state) (i : nat) : R * state :=
  let '(loss, s') := train_step i (nth i x_data_flat []) (snd acc) in
  (fst acc + loss, s').

Definition train_on_each_shape (s : state) : R * state :=
  fold_left train_on_shape (seq 0 NUM_SHAPES) (0, s).

Inductive outcome : Type :=
| Completed (s : state)
| Uncaught (e : exn) (s : state).

(** [epoch % display_interval] on Python integers. *)
Definition py_mod (a b : Z) : option Z :=
  if (b =? 0)%Z then None else Some (a mod b)%Z.

(** Body of [for epoch in range(1, epochs + 1)] (lines 107-120).  With no
    shape at all [epoch_loss] is still the integer [0] when it is divided by
    [NUM_SHAPES = 0], and Python raises. *)
Definition epoch_body (epochs : nat) (display_interval : Z) (epoch : nat)
           (s : state) : outcome :=
  let '(epoch_loss, s1) := train_on_each_shape s in
  if (NUM_SHAPES =? 0)%nat
  then Uncaught (ZeroDivisionError "division by zero"%string) s1
  else
    let epoch_loss := epoch_loss / INR NUM_SHAPES in
    let s2 := {| latent_codes := latent_codes s1;
                 decoder := decoder s1;
                 optimizer := optimizer s1;
                 loss_history := loss_history s1 ++ [epoch_loss];
                 console := console s1;
                 encoded_points := encoded_points s1 |} in
    match py_mod (Z.of_nat epoch) display_interval with
    | None =>
        Uncaught
          (ZeroDivisionError "integer modulo by zero"%string) s2
    | Some r =>
        if (r =? 0)%Z || (epoch =? 1)%nat
        then Completed
               {| latent_codes := latent_codes s2;
                  decoder := decoder s2;
                  optimizer := optimizer s2;
                  loss_history := loss_history s2;
                  console := console s2 ++ [mkProgress epoch epochs epoch_loss];
                  encoded_points := encoded_points s2 |}
        else Completed s2
    end.

Fixpoint for_each (body : nat -> state -> outcome) (xs : list nat) (s : state)
  : outcome :=
  match xs with
  | [] => Completed s
  | x :: xs' =>
      match body x s with
      | Completed s' => for_each body xs' s'
      | Uncaught e s' => Uncaught e s'
      end
  end.

Definition training_loop (epochs : nat) (display_interval : Z) (s : state)
  : outcome :=
  for_each (epoch_body epochs display_interval) (seq 1 epochs) s.

(** [loss_history = []]. *)
Definition clear_history (s : state) : state :=
  {| latent_codes := latent_codes s;
     decoder := decoder s;
     optimizer := optimizer s;
     loss_history := [];
     console := console s;
     encoded_points := encoded_points s |}.

(** The training history is emptied, then the main training loop runs. *)
Definition train (epochs : nat) (display_interval : Z) (s : state) : outcome :=
  training_loop epochs display_interval (clear_history s).

(** The mean loss the epoch that starts in state [s] appends to the
    history. *)
Definition epoch_mean_loss (s : state) : R :=
  fst (train_on_each_shape s) / INR NUM_SHAPES.

(** Keras creates the two moment slots of a variable with the variable's
    shape. *)
Definition slots_aligned (s : state) : Prop :=
  same_shape (m_latent (optimizer s)) (latent_codes s) /\
  same_shape (v_latent (optimizer s)) (latent_codes s).

Definition layer_aligned (l : Dense) (w : matrix * vector) : Prop :=
  same_shape (fst w) (kernel l) /\ length (snd w) = length (bias l).

Definition decoder_slots_aligned (s : state) : Prop :=
  Forall2 layer_aligned (decoder s) (m_decoder (optimizer s)) /\
  Forall2 layer_aligned (decoder s) (v_decoder (optimizer s)).

(** The decoder of a state is the stack [create_decoder] builds, and the
    optimizer's slots for it have the shapes of its weights. *)
Definition well_shaped (s : state) : Prop :=
  has_architecture (decoder s) /\ decoder_slots_aligned s.

(** All the shapes training relies on: those of the decoder and of its slots,
    and a latent table of [NUM_SHAPES] rows of [LATENT_DIM] entries with slots
    to match. *)
Definition shapes_kept (s : state) : Prop :=
  well_shaped s /\ slots_aligned s /\
  length (latent_codes s) = NUM_SHAPES /\
  Forall (fun row => length row = LATENT_DIM) (latent_codes s).

(** *** Export *)

(** [export_model = create_decoder(); export_model.set_weights(
    decoder.get_weights())] (lines 204-210); compiling the model does not touch
    its weights. *)
Definition export_model (init : nat -> nat -> nat -> R) (s : state)
  : result Sequential :=
  set_weights (create_decoder init) (get_weights (decoder s)).

(** *** Sampling the latent grid (lines 227-258) *)

(** [np.sum((img - shape_img)**2)]. *)
Definition l2_distance (img shape_img : matrix) : R :=
  sum2 (zip_with (zip_with (fun a b => (a - b) ^ 2)) img shape_img).

(** One turn of [for i in range(NUM_SHAPES)] on [(min_dist, closest_shape)]. *)
Definition closer (img : matrix) (acc : float * Z) (i : nat) : float * Z :=
  let dist := l2_distance img (nth i x_data []) in
  if lt_float dist (fst acc) then (Finite dist, nth i y_data 0%Z) else acc.

Definition closest_shape (img : matrix) : Z :=
  snd (fold_left (closer img) (seq 0 NUM_SHAPES) (Inf, 0%Z)).


Definition decode_image (model : Sequential) (x y : R) : matrix :=
  reshape 28 28 (predict model [x; y]).

(** Body of the two grid loops: decode, classify, append. *)
Definition sample_point (x y : R) (s : state) : state :=
  let img := decode_image (decoder s) x y in
  {| latent_codes := latent_codes s;
     decoder := decoder s;
     optimizer := optimizer s;
     loss_history := loss_history s;
     console := console s;
     encoded_points := encoded_points s ++ [(x, y, closest_shape img)] |}.

Definition sample_latent_space (g : grid) (s : state) : state :=
  let x_grid := linspace (x_min g) (x_max g) (grid_size g) in
  let y_grid := linspace (y_min g) (y_max g) (grid_size g) in
  let s0 := {| latent_codes := latent_codes s;
               decoder := decoder s;
               optimizer := optimizer s;
               loss_history := loss_history s;
               console := console s;
               encoded_points := [] |} in
  fold_left (fun s1 x => fold_left (fun s2 y => sample_point x y s2) y_grid s1)
            x_grid s0.

(** The triples one sweep of the inner loop appends for a fixed [x], as a
    list. *)
Definition labelled (model : Sequential) (x : R) (ys : vector)
  : list (R * R * Z) :=
  map (fun y => (x, y, closest_shape (decode_image model x y))) ys.

(** *** Reporting the learned codes (lines 156-159) *)

(** [for i, code in enumerate(learned_latent_codes)]: one printed line per
    row of the table, with the index, the class [y_data[i]] and the code.
    [None] stands for the [IndexError] of [y_data[i]]. *)
Fixpoint report_lines (i : nat) (codes : matrix)
  : option (list (nat * Z * vector)) :=
  match codes with
  | [] => Some []
  | code :: rest =>
      match nth_error y_data i with
      | None => None
      | Some class =>
          match report_lines (S i) rest with
          | None => None
          | Some lines => Some ((i, class, code) :: lines)
          end
      end
  end.

Definition report_latent_codes (s : state)
  : option (list (nat * Z * vector)) :=
  report_lines 0 (latent_codes s).

End Run.

(** *** The preview figure (lines 174-198) *)

(** [enumerate(xs)]. *)
Definition enumerate {A : Type} (xs : list A) : list (nat * A) :=
  combine (seq 0 (length xs)) xs.

(** The two loops over [enumerate(x_range)] and [enumerate(y_range)]: every
    turn decodes one latent point and shows it in the subplot numbered
    [i * grid_size + j + 1] of a [grid_size] x [grid_size] figure. *)
Definition preview_figure (g : grid) (model : Sequential)
  : list (nat * matrix) :=
  let x_range := linspace (x_min g) (x_max g) (grid_size g) in
  let y_range := linspace (y_min g) (y_max g) (grid_size g) in
  flat_map
    (fun ix =>
       map (fun jy => ((fst ix * grid_size g + fst jy + 1)%nat,
                       decode_image model (snd ix) (snd jy)))
           (enumerate y_range))
    (enumerate x_range).

Definition preview_grid : grid :=
  {| x_min := -3; x_max := 3; y_min := -3; y_max := 3; grid_size := 5 |}.

(** *** What [set_weights] compares (line 210)

    The arrays of [model] have the shapes of the variables of the stack
    [spec] built on [in_dim] input features: a kernel of [in_dim] rows and as
    many columns as the layer is wide, a bias of that width, and as many
    layers.  The widths and activations the layers of [model] declare are not
    looked at. *)
Fixpoint weights_fit (in_dim : nat) (spec : list (nat * activation))
         (model : Sequential) : Prop :=
  match spec, model with
  | [], [] => True
  | (u, _) :: spec', l :: model' =>
      length (kernel l) = in_dim /\
      Forall (fun row => length row = u) (kernel l) /\
      length (bias l) = u /\
      weights_fit u spec' model'
  | _, _ => False
  end.

(** The values the script configures (lines 77-78 and 227-229). *)
#[warnings="-abstract-large-number"]
Definition epochs : nat := 10000.
Definition display_interval : Z := 1000.
Definition latent_grid : grid :=
  {| x_min := -3; x_max := 3; y_min := -3; y_max := 3; grid_size := 20 |}.

End Script.

(** ** A small run, for the examples

    Two 28x28 shapes (all black, all white) labelled 0 and 1; every latent
    entry starts at 1 and every kernel entry at 1/1000; gradients are those of
    reverse-mode differentiation. *)

Module Demo.

Import Py Np Keras Script.
Local Open Scope R_scope.

Definition dataset : list (matrix * Z) :=
  [(repeat (repeat 0 28) 28, 0%Z); (repeat (repeat 1 28) 28, 1%Z)].

Definition gradient : Sequential -> vector -> vector ->
                      vector * list (matrix * vector) :=
  tape_gradient.

Definition start : state :=
  initial_state dataset (fun _ _ => 1) (fun _ _ _ => 1 / 1000).

(** The same program state with other latent codes and stale grid points. *)
Definition other : state :=
  {| latent_codes := [[0; 2]; [3; 4]];
     decoder := decoder start;
     optimizer := optimizer start;
     loss_history := [1];
     console := [];
     encoded_points := [(0, 0, 7%Z)] |}.


(** The same program state with a decoder of one layer only. *)
Definition one_layer : state :=
  {| latent_codes := latent_codes start;
     decoder := [dense_build (fun _ _ => 1) LATENT_DIM (28 * 28) sigmoid];
     optimizer := optimizer start;
     loss_history := [];
     console := [];
     encoded_points := [] |}.

End Demo.

(** * Properties *)

(** ** Array lemmas *)

Section ArrayFacts.

Import Np Keras.
Local Open Scope R_scope.

Lemma zip_with_length {A B C : Type} (f : A -> B -> C) xs ys :
  length (zip_with f xs ys) = Nat.min (length xs) (length ys).
Proof.
  revert ys; induction xs as [|x xs IH]; intros [|y ys]; simpl; auto.
Qed.

Lemma zip_with3_length {A B C D : Type} (f : A -> B -> C -> D) xs ys zs :
  length (zip_with3 f xs ys zs)
  = Nat.min (length xs) (Nat.min (length ys) (length zs)).
Proof.
  revert ys zs; induction xs as [|x xs IH]; intros [|y ys] [|z zs];
    simpl; auto.
Qed.

Lemma sum_nonneg v : Forall (fun x => 0 <= x) v -> 0 <= sum v.
Proof.
  induction 1 as [|x v Hx _ IH]; simpl; lra.
Qed.

Lemma squared_difference_nonneg p t :
  Forall (fun x => 0 <= x) (squared_difference p t).
Proof.
  revert t; induction p as [|a p IH]; intros [|b t]; simpl; constructor.
  - exact (Rle_0_sqr (a - b)).
  - apply IH.
Qed.

Lemma squared_difference_self v : sum (squared_difference v v) = 0.
Proof.
  induction v as [|a v IH]; simpl; [reflexivity|].
  unfold squared_difference in IH. rewrite IH. ring.
Qed.

Lemma zeros_length n : length (zeros n) = n.
Proof. apply repeat_length. Qed.

Lemma matmul_length u x k :
  Forall (fun row => length row = u) k -> length (matmul u x k) = u.
Proof.
  intros Hk. unfold matmul.
  assert (Hacc : length (zeros u) = u) by apply zeros_length.
  revert Hacc. generalize (zeros u) as acc.
  revert x. induction Hk as [|row k Hrow _ IH]; intros x acc Hacc.
  - destruct x; simpl; assumption.
  - destruct x as [|a x]; simpl; [assumption|].
    apply IH. unfold vec_add, scale.
    rewrite zip_with_length, length_map, Hacc, Hrow. apply Nat.min_id.
Qed.

Lemma dense_call_length in_dim l x :
  built in_dim l -> length (dense_call l x) = units l.
Proof.
  intros (_ & Hk & Hb). unfold dense_call, pre_activation, vec_add.
  rewrite length_map, zip_with_length, (matmul_length _ Hk), Hb.
  apply Nat.min_id.
Qed.

Lemma sigmoid_fn_range x : 0 <= sigmoid_fn x <= 1.
Proof.
  unfold sigmoid_fn.
  assert (He : 0 < exp (- x)) by apply exp_pos.
  assert (Hd : 0 < 1 + exp (- x)) by lra.
  split.
  - apply Rlt_le, Rdiv_lt_0_compat; lra.
  - apply (Rmult_le_reg_r (1 + exp (- x))); [assumption|].
    unfold Rdiv. rewrite Rmult_assoc, Rinv_l by lra. lra.
Qed.

End ArrayFacts.

(** ** The loss *)

Section Loss.

Import Py Np Keras Script.
Local Open Scope R_scope.

(** C6.  The mean squared error of two vectors of the same (non-zero) length
    is a non-negative real, and the error of a vector against itself is
    exactly 0. *)
Theorem loss_fn_nonneg_zero_on_self (y_true y_pred : vector) :
  length y_true = length y_pred -> y_true <> [] ->
  0 <= loss_fn y_true y_pred /\ loss_fn y_true y_true = 0.
Proof.
  intros Hlen Hne. unfold loss_fn, MeanSquaredError, reduce_mean.
  assert (Hn : 0 < INR (length (squared_difference y_pred y_true))).
  { apply lt_0_INR. unfold squared_difference.
    rewrite zip_with_length, <- Hlen, Nat.min_id.
    destruct y_true; [contradiction Hne; reflexivity | simpl; lia]. }
  split.
  - apply Rmult_le_pos.
    + apply sum_nonneg, squared_difference_nonneg.
    + apply Rlt_le, Rinv_0_lt_compat, Hn.
  - rewrite squared_difference_self. unfold Rdiv. apply Rmult_0_l.
Qed.

(** Two one-hot vectors of length 2. *)
Lemma loss_fn_nonneg_zero_on_self_witness :
  0 <= loss_fn [1; 0] [0; 1] /\ loss_fn [1; 0] [1; 0] = 0.
Proof.
  apply (@loss_fn_nonneg_zero_on_self [1; 0] [0; 1]).
  - reflexivity.
  - discriminate.
Defined.

End Loss.

(** ** The decoder *)

Section Decoder.

Import Py Np Keras Script.
Local Open Scope R_scope.

Lemma dense_build_built init in_dim u a :
  built in_dim (dense_build init in_dim u a).
Proof.
  unfold built, dense_build; simpl. repeat split.
  - now rewrite length_map, length_seq.
  - apply Forall_forall. intros row Hrow.
    apply in_map_iff in Hrow as (i & <- & _).
    now rewrite length_map, length_seq.
  - apply zeros_length.
Qed.

Lemma sequential_build_built init spec : forall k in_dim,
  built_from in_dim spec (sequential_build init k in_dim spec).
Proof.
  induction spec as [|[u a] spec IH]; intros k in_dim; simpl; [exact I|].
  repeat split; try apply dense_build_built. apply IH.
Qed.

Lemma create_decoder_has_architecture init :
  has_architecture (create_decoder init).
Proof. apply sequential_build_built. Qed.

Lemma has_architecture_inv model :
  has_architecture model ->
  exists front l,
    model = front ++ [l] /\ units l = (28 * 28)%nat /\ act l = sigmoid /\
    built 512 l.
Proof.
  unfold has_architecture, decoder_layers.
  destruct model as [|l1 [|l2 [|l3 [|l4 [|l5 rest]]]]];
    cbn [built_from]; try tauto.
  intros (_ & _ & _ & _ & _ & _ & _ & _ & _ & U4 & A4 & B4 & _).
  exists [l1; l2; l3], l4. auto.
Qed.

(** C5.  Whatever the latent input, a decoder with the architecture of
    [create_decoder] returns a flat vector of 28 * 28 = 784 entries, each of
    them in [0, 1]. *)
Theorem decoder_output_length_and_range (model : Sequential) (z : vector) :
  has_architecture model ->
  length (call model z) = 784%nat /\
  Forall (fun y => 0 <= y <= 1) (call model z).
Proof.
  intros H. apply has_architecture_inv in H as (front & l & -> & U & A & B).
  unfold call. rewrite fold_left_app. cbn [fold_left].
  split.
  - rewrite (dense_call_length _ B), U. reflexivity.
  - unfold dense_call. rewrite A. apply Forall_map, Forall_forall.
    intros x _. apply sigmoid_fn_range.
Qed.

(** A freshly created decoder with all kernel entries at zero, decoding the
    origin of the latent plane. *)
Lemma decoder_output_length_and_range_witness :
  length (call (create_decoder (fun _ _ _ => 0)) [0; 0]) = 784%nat /\
  Forall (fun y => 0 <= y <= 1) (call (create_decoder (fun _ _ _ => 0)) [0; 0]).
Proof.
  apply decoder_output_length_and_range, create_decoder_has_architecture.
Defined.

End Decoder.

(** ** Export *)

Section ExportModel.

Import Py Np Keras Script.
Local Open Scope R_scope.

Lemma has_shape_built in_dim l :
  built in_dim l -> has_shape in_dim (units l) (kernel l) = true.
Proof.
  intros (Hrows & Hcols & _). unfold has_shape.
  apply andb_true_intro; split.
  - now apply Nat.eqb_eq.
  - apply forallb_forall. intros row Hrow. apply Nat.eqb_eq.
    revert row Hrow. now apply Forall_forall.
Qed.

(** Storing the weights of one model into another model of the same
    architecture succeeds and yields the first model. *)
Lemma set_weights_get_weights spec : forall in_dim fresh trained,
  built_from in_dim spec fresh -> built_from in_dim spec trained ->
  set_weights fresh (get_weights trained) = Ok trained.
Proof.
  induction spec as [|[u a] spec IH]; intros in_dim fresh trained.
  - destruct fresh, trained; simpl; try tauto.
  - destruct fresh as [|f fresh], trained as [|t trained]; simpl; try tauto.
    intros (Uf & Af & Bf & Hf) (Ut & At & Bt & Ht).
    assert (Hk : has_shape (length (kernel f)) (units f) (kernel t) = true).
    { destruct Bf as (-> & _). rewrite Uf, <- Ut.
      now apply has_shape_built. }
    assert (Hb : (length (bias t) =? units f)%nat = true).
    { destruct Bt as (_ & _ & ->). apply Nat.eqb_eq. congruence. }
    rewrite Hk, Hb. cbn [andb].
    change (flat_map _ trained) with (get_weights trained).
    rewrite (IH u fresh trained Hf Ht).
    destruct t; simpl in *. now subst.
Qed.

(** C10.  Once [set_weights] has copied the trained decoder's weights into the
    freshly created export model, the export model computes the same function:
    on every latent input it predicts what the trained decoder predicts. *)
Theorem export_model_same_function (init : nat -> nat -> nat -> R)
        (s : state) :
  has_architecture (decoder s) ->
  exists exported,
    export_model init s = Ok exported /\
    forall z, predict exported z = predict (decoder s) z.
Proof.
  intros H. exists (decoder s). split; [|reflexivity].
  apply set_weights_get_weights with (spec := decoder_layers) (in_dim := LATENT_DIM).
  - apply create_decoder_has_architecture.
  - exact H.
Qed.

(** Exporting the decoder of the demo run into a model initialised with
    other weights. *)
Lemma export_model_same_function_witness :
  exists exported,
    export_model (fun _ _ _ => 1) Demo.start = Ok exported /\
    forall z, predict exported z = predict (decoder Demo.start) z.
Proof.
  apply export_model_same_function.
  exact (create_decoder_has_architecture (fun _ _ _ => 1 / 1000)).
Defined.

End ExportModel.

(** ** Sampling the latent grid *)

Section Sampler.

Import Py Np Keras Script.
Local Open Scope R_scope.

Variable dataset : list (matrix * Z).

Local Abbreviation NUM_SHAPES := (NUM_SHAPES dataset).
Local Abbreviation x_data := (x_data dataset).
Local Abbreviation y_data := (y_data dataset).

Lemma linspace_length start stop num :
  length (linspace start stop num) = num.
Proof.
  destruct num as [|[|k]]; simpl; try reflexivity.
  rewrite length_app, length_map, length_seq. simpl. lia.
Qed.

(** *** The nearest-shape loop *)




(** *** The grid loops *)

Local Abbreviation labelled := (labelled dataset).

Lemma inner_loop_points x ys : forall s,
  decoder (fold_left (fun s2 y => sample_point dataset x y s2) ys s)
  = decoder s /\
  encoded_points (fold_left (fun s2 y => sample_point dataset x y s2) ys s)
  = encoded_points s ++ labelled (decoder s) x ys.
Proof.
  induction ys as [|y ys IH]; intros s; unfold Script.labelled;
    cbn [fold_left map].
  - split; [reflexivity | now rewrite app_nil_r].
  - destruct (IH (sample_point dataset x y s)) as [Hd Hp].
    rewrite Hd, Hp. cbn [sample_point decoder encoded_points].
    split; [reflexivity | now rewrite <- app_assoc].
Qed.

Lemma outer_loop_points ys xs : forall s,
  decoder (fold_left
             (fun s1 x => fold_left (fun s2 y => sample_point dataset x y s2) ys s1)
             xs s)
  = decoder s /\
  encoded_points (fold_left
             (fun s1 x => fold_left (fun s2 y => sample_point dataset x y s2) ys s1)
             xs s)
  = encoded_points s ++ flat_map (fun x => labelled (decoder s) x ys) xs.
Proof.
  induction xs as [|x xs IH]; intros s; cbn [fold_left flat_map].
  - split; [reflexivity | now rewrite app_nil_r].
  - destruct (IH (fold_left (fun s2 y => sample_point dataset x y s2) ys s))
      as [Hd Hp].
    destruct (inner_loop_points x ys s) as [Hd' Hp'].
    rewrite Hd, Hp, Hd', Hp'.
    split; [reflexivity | now rewrite <- app_assoc].
Qed.

(** The sampler leaves the decoder alone and rebuilds [encoded_points] from
    the decoder, the dataset and the grid only. *)
Lemma sample_latent_space_points g s :
  decoder (sample_latent_space dataset g s) = decoder s /\
  encoded_points (sample_latent_space dataset g s)
  = flat_map (fun x => labelled (decoder s) x
                         (linspace (y_min g) (y_max g) (grid_size g)))
             (linspace (x_min g) (x_max g) (grid_size g)).
Proof.
  unfold sample_latent_space.
  match goal with
  | |- context [fold_left ?f ?xs ?s0] =>
      destruct (outer_loop_points
                  (linspace (y_min g) (y_max g) (grid_size g)) xs s0)
        as [Hd Hp]
  end.
  rewrite Hd, Hp. split; reflexivity.
Qed.


Lemma length_flat_map_uniform {A B : Type} (f : A -> list B) n :
  (forall x, length (f x) = n) ->
  forall xs, length (flat_map f xs) = (length xs * n)%nat.
Proof.
  intros Hf. induction xs as [|x xs IH]; cbn [flat_map]; [reflexivity|].
  rewrite length_app, Hf, IH. simpl. reflexivity.
Qed.

Lemma labelled_length model x ys : length (labelled model x ys) = length ys.
Proof. apply length_map. Qed.





(** C7.  The sampler is deterministic: two runs on the same dataset and grid
    from states that hold the same decoder emit the same sequence of triples,
    whatever else the states hold, and so does a second run right after the
    first. *)
Theorem sample_latent_space_deterministic (g : grid) (s1 s2 : state) :
  decoder s1 = decoder s2 ->
  encoded_points (sample_latent_space dataset g s1)
  = encoded_points (sample_latent_space dataset g s2) /\
  encoded_points (sample_latent_space dataset g
                    (sample_latent_space dataset g s1))
  = encoded_points (sample_latent_space dataset g s1).
Proof.
  intros Hdec.
  destruct (sample_latent_space_points g s1) as [Hd1 Hp1].
  destruct (sample_latent_space_points g s2) as [_ Hp2].
  destruct (sample_latent_space_points g (sample_latent_space dataset g s1))
    as [_ Hp3].
  rewrite Hp3, Hp1, Hp2, Hd1, Hdec. split; reflexivity.
Qed.

End Sampler.

Section SamplerExamples.

Import Py Np Keras Script.
Local Open Scope R_scope.


(** Two states of the demo that share the decoder and nothing else, on the
    20x20 grid of the script. *)
Lemma sample_latent_space_deterministic_witness :
  encoded_points (sample_latent_space Demo.dataset latent_grid Demo.start)
  = encoded_points (sample_latent_space Demo.dataset latent_grid Demo.other) /\
  encoded_points (sample_latent_space Demo.dataset latent_grid
                    (sample_latent_space Demo.dataset latent_grid Demo.start))
  = encoded_points (sample_latent_space Demo.dataset latent_grid Demo.start).
Proof.
  apply sample_latent_space_deterministic. reflexivity.
Defined.

End SamplerExamples.

(** ** The optimizer step on the latent table *)

Section LatentTable.

Import Py Np Keras Script.
Local Open Scope R_scope.

Lemma beta_1_pow_lt_1 t : (0 < t)%nat -> beta_1 ^ t < 1.
Proof.
  intros Ht. apply pow_lt_1_compat; [unfold beta_1; lra | exact Ht].
Qed.

Lemma beta_2_pow_lt_1 t : (0 < t)%nat -> beta_2 ^ t < 1.
Proof.
  intros Ht. apply pow_lt_1_compat; [unfold beta_2; lra | exact Ht].
Qed.

Lemma adam_lr_t_pos t : (0 < t)%nat -> 0 < adam_lr_t learning_rate t.
Proof.
  intros Ht. unfold adam_lr_t.
  pose proof (beta_1_pow_lt_1 Ht). pose proof (beta_2_pow_lt_1 Ht).
  apply Rdiv_lt_0_compat; [|lra].
  apply Rmult_lt_0_compat; [unfold learning_rate; lra|].
  apply sqrt_lt_R0. lra.
Qed.

Lemma adam_denominator_pos v : 0 < sqrt v + epsilon.
Proof.
  pose proof (sqrt_pos v). unfold epsilon. lra.
Qed.

(** An entry stays where it is exactly when its first moment is zero. *)
Lemma adam_move_fixed_iff lr_t x m v :
  0 < lr_t -> (adam_move lr_t x m v = x <-> m = 0).
Proof.
  intros Hlr. unfold adam_move. pose proof (adam_denominator_pos v) as Hd.
  split.
  - intros H.
    assert (Hz : lr_t * m / (sqrt v + epsilon) = 0) by lra.
    unfold Rdiv in Hz.
    apply Rmult_integral in Hz as [Hz | Hz].
    + apply Rmult_integral in Hz as [Hz | Hz]; [lra | exact Hz].
    + pose proof (Rinv_0_lt_compat _ Hd). lra.
  - intros ->. unfold Rdiv. rewrite Rmult_0_r, Rmult_0_l. lra.
Qed.

Lemma adam_var_decayed_fixed_iff lr_t : 0 < lr_t ->
  forall x m v, length m = length x -> length v = length x ->
  (adam_var lr_t x (scale beta_1 m) (scale beta_2 v) = x
   <-> Forall (fun c => c = 0) m).
Proof.
  intros Hlr. unfold adam_var, scale.
  induction x as [|a x IH]; intros [|b m] [|c v] Hm Hv;
    try discriminate; cbn [map zip_with3].
  - split; auto.
  - injection Hm as Hm. injection Hv as Hv. specialize (IH m v Hm Hv).
    split.
    + intros H. injection H as Ha Hx. constructor.
      * apply (adam_move_fixed_iff a _ (beta_2 * c) Hlr) in Ha.
        unfold beta_1 in Ha. lra.
      * now apply IH.
    + intros H. inversion H as [|? ? Hb Hrest]; subst. f_equal.
      * apply adam_move_fixed_iff; [exact Hlr | lra].
      * now apply IH.
Qed.

Lemma update_row_length i f m : length (update_row i f m) = length m.
Proof.
  revert i; induction m as [|r m IH]; intros [|i]; simpl; auto.
Qed.

Lemma update_row_other i f m j :
  j <> i -> nth j (update_row i f m) [] = nth j m [].
Proof.
  revert i j; induction m as [|r m IH]; intros [|i] [|j] Hne; simpl;
    try congruence.
  apply IH. congruence.
Qed.

Lemma nth_map_rows (f : vector -> vector) m j :
  (j < length m)%nat -> nth j (map f m) [] = f (nth j m []).
Proof.
  intros Hj. rewrite (nth_indep _ [] (f [])) by now rewrite length_map.
  apply map_nth.
Qed.

Lemma nth_zip_with3 (f : vector -> vector -> vector -> vector) xs ys zs j :
  (j < length xs)%nat -> (j < length ys)%nat -> (j < length zs)%nat ->
  nth j (zip_with3 f xs ys zs) [] = f (nth j xs []) (nth j ys []) (nth j zs []).
Proof.
  revert ys zs j; induction xs as [|x xs IH]; intros [|y ys] [|z zs] [|j];
    simpl; intros; try lia; auto.
  apply IH; lia.
Qed.

Lemma same_shape_length a b : same_shape a b -> length a = length b.
Proof. apply Forall2_length. Qed.

Lemma same_shape_nth a b j :
  same_shape a b -> length (nth j a []) = length (nth j b []).
Proof.
  intros H. revert j; induction H as [|r r' a b Hr _ IH]; intros [|j];
    simpl; auto.
Qed.

Variable gradient :
  Sequential -> vector -> vector -> vector * list (matrix * vector).

Local Abbreviation train_step := (train_step gradient).

Local Abbreviation latent_gradient := (latent_gradient gradient).

Lemma train_step_latent_codes i target s :
  latent_codes (snd (train_step i target s))
  = zip_with3 (adam_var (adam_lr_t learning_rate (S (iterations (optimizer s)))))
      (latent_codes s)
      (adam_m_sparse (m_latent (optimizer s)) (latent_gradient i target s))
      (adam_v_sparse (v_latent (optimizer s)) (latent_gradient i target s)).
Proof.
  unfold Script.train_step, Script.latent_gradient, apply_gradients.
  destruct (gradient _ _ _) as [g_z g_decoder].
  destruct (adam_layers _ _ _ _ _) as [[dec md] vd]. reflexivity.
Qed.

Lemma train_step_optimizer i target s :
  iterations (optimizer (snd (train_step i target s)))
  = S (iterations (optimizer s)) /\
  m_latent (optimizer (snd (train_step i target s)))
  = adam_m_sparse (m_latent (optimizer s)) (latent_gradient i target s) /\
  v_latent (optimizer (snd (train_step i target s)))
  = adam_v_sparse (v_latent (optimizer s)) (latent_gradient i target s).
Proof.
  unfold Script.train_step, Script.latent_gradient, apply_gradients.
  destruct (gradient _ _ _) as [g_z g_decoder].
  destruct (adam_layers _ _ _ _ _) as [[dec md] vd]. auto.
Qed.

Lemma train_step_frame i target s :
  loss_history (snd (train_step i target s)) = loss_history s /\
  console (snd (train_step i target s)) = console s /\
  encoded_points (snd (train_step i target s)) = encoded_points s.
Proof.
  unfold Script.train_step, Script.latent_gradient, apply_gradients.
  destruct (gradient _ _ _) as [g_z g_decoder].
  destruct (adam_layers _ _ _ _ _) as [[dec md] vd]. auto.
Qed.

Lemma adam_m_sparse_single m g i :
  adam_m_sparse m {| values := [g]; indices := [i] |}
  = update_row i (fun r => vec_add r (scale (1 - beta_1) g))
               (map (scale beta_1) m).
Proof. reflexivity. Qed.

Lemma adam_v_sparse_single v g i :
  adam_v_sparse v {| values := [g]; indices := [i] |}
  = update_row i (fun r => vec_add r (scale (1 - beta_2) (zip_with Rmult g g)))
               (map (scale beta_2) v).
Proof. reflexivity. Qed.

(** A row other than the gathered one after a step: its moments only decay,
    and the row moves by the decayed first moment. *)
Lemma train_step_other_row i j target s :
  slots_aligned s -> (j < length (latent_codes s))%nat -> j <> i ->
  nth j (m_latent (optimizer (snd (train_step i target s)))) []
  = scale beta_1 (nth j (m_latent (optimizer s)) []) /\
  nth j (latent_codes (snd (train_step i target s))) []
  = adam_var (adam_lr_t learning_rate (S (iterations (optimizer s))))
      (nth j (latent_codes s) [])
      (scale beta_1 (nth j (m_latent (optimizer s)) []))
      (scale beta_2 (nth j (v_latent (optimizer s)) [])).
Proof.
  intros [Hm Hv] Hj Hne.
  destruct (train_step_optimizer i target s) as (_ & -> & _).
  rewrite train_step_latent_codes.
  unfold Script.latent_gradient.
  rewrite adam_m_sparse_single, adam_v_sparse_single.
  pose proof (same_shape_length Hm) as Hlm.
  pose proof (same_shape_length Hv) as Hlv.
  assert (Hrow_m : forall f, nth j (update_row i f (map (scale beta_1)
                     (m_latent (optimizer s)))) []
                   = scale beta_1 (nth j (m_latent (optimizer s)) [])).
  { intros f. rewrite update_row_other by exact Hne.
    apply nth_map_rows. now rewrite Hlm. }
  assert (Hrow_v : forall f, nth j (update_row i f (map (scale beta_2)
                     (v_latent (optimizer s)))) []
                   = scale beta_2 (nth j (v_latent (optimizer s)) [])).
  { intros f. rewrite update_row_other by exact Hne.
    apply nth_map_rows. now rewrite Hlv. }
  assert (Hlen : forall f k (a : matrix),
            length a = length (latent_codes s) ->
            (j < length (update_row i f (map (scale k) a)))%nat).
  { intros f k a Ha. now rewrite update_row_length, length_map, Ha. }
  split; [apply Hrow_m|].
  rewrite nth_zip_with3 by auto. now rewrite Hrow_m, Hrow_v.
Qed.

Lemma train_step_latent_length i target s :
  slots_aligned s ->
  length (latent_codes (snd (train_step i target s)))
  = length (latent_codes s).
Proof.
  intros [Hm Hv]. rewrite train_step_latent_codes.
  unfold Script.latent_gradient.
  rewrite adam_m_sparse_single, adam_v_sparse_single.
  rewrite zip_with3_length, !update_row_length, !length_map.
  rewrite (same_shape_length Hm), (same_shape_length Hv), !Nat.min_id.
  reflexivity.
Qed.

(** C1 (amended).  A training step on sample [i] keeps one latent row per
    sample, in place, and hands the optimizer a gradient for row [i] only;
    the first moment of any other row [j] just decays.  Such a row is left
    unchanged by the step exactly when its accumulated first moment is zero
    (as it is until a step has been taken on sample [j]); otherwise Adam moves
    it as well. *)
Theorem train_step_rows_without_gradient (i j : nat) (target : vector)
        (s : state) :
  slots_aligned s -> (j < length (latent_codes s))%nat -> j <> i ->
  length (latent_codes (snd (train_step i target s)))
  = length (latent_codes s) /\
  nth j (m_latent (optimizer (snd (train_step i target s)))) []
  = scale beta_1 (nth j (m_latent (optimizer s)) []) /\
  (nth j (latent_codes (snd (train_step i target s))) []
   = nth j (latent_codes s) []
   <-> Forall (fun c => c = 0) (nth j (m_latent (optimizer s)) [])).
Proof.
  intros Hal Hj Hne.
  destruct (train_step_other_row target Hal Hj Hne) as [Hmoment Hrow].
  split; [now apply train_step_latent_length|].
  split; [exact Hmoment|].
  rewrite Hrow. destruct Hal as [Hm Hv].
  apply adam_var_decayed_fixed_iff.
  - apply adam_lr_t_pos. lia.
  - apply (same_shape_nth j Hm).
  - apply (same_shape_nth j Hv).
Qed.

(** The gathered row is the one that receives the gradient: its first moment
    becomes the decayed old moment plus [(1 - beta_1)] times the gradient. *)
Lemma update_row_same i f m :
  (i < length m)%nat -> nth i (update_row i f m) [] = f (nth i m []).
Proof.
  revert i; induction m as [|r m IH]; intros [|i] Hi; simpl in *;
    try lia; auto.
  apply IH. lia.
Qed.

Lemma train_step_gathered_row_moment i target s :
  (i < length (m_latent (optimizer s)))%nat ->
  nth i (m_latent (optimizer (snd (train_step i target s)))) []
  = vec_add (scale beta_1 (nth i (m_latent (optimizer s)) []))
            (scale (1 - beta_1)
               (fst (gradient (decoder s) (gather (latent_codes s) i) target))).
Proof.
  intros Hi. destruct (train_step_optimizer i target s) as (_ & -> & _).
  unfold Script.latent_gradient. rewrite adam_m_sparse_single.
  rewrite update_row_same by now rewrite length_map.
  now rewrite nth_map_rows.
Qed.

(** *** The slots keep the shape of the table *)

Lemma same_shape_refl a : same_shape a a.
Proof. induction a; constructor; auto. Qed.

Lemma same_shape_sym a b : same_shape a b -> same_shape b a.
Proof. induction 1; constructor; auto. Qed.

Lemma same_shape_trans a b c :
  same_shape a b -> same_shape b c -> same_shape a c.
Proof.
  intros Hab. revert c. induction Hab as [|x y a b Hxy _ IH]; intros c Hbc;
    inversion Hbc; subst; constructor.
  - congruence.
  - now apply IH.
Qed.

Lemma same_shape_scale k a : same_shape (map (scale k) a) a.
Proof.
  induction a; cbn [map]; constructor; auto. unfold scale. apply length_map.
Qed.

Lemma same_shape_update_row i f a :
  (forall r, nth_error a i = Some r -> length (f r) = length r) ->
  same_shape (update_row i f a) a.
Proof.
  revert i; induction a as [|r a IH]; intros [|i] Hf; cbn [update_row];
    try (constructor; fail).
  - constructor; [apply Hf; reflexivity | apply same_shape_refl].
  - constructor; [reflexivity|].
    apply IH. intros r' Hr'. apply Hf. exact Hr'.
Qed.

Lemma same_shape_adam_var lr_t x m v :
  same_shape m x -> same_shape v x ->
  same_shape (zip_with3 (adam_var lr_t) x m v) x.
Proof.
  intros Hm. revert v. induction Hm as [|rm rx m x Hr _ IH]; intros v Hv;
    inversion Hv as [|rv ? v' ? Hrv Hv']; subst; cbn [zip_with3];
    constructor.
  - unfold adam_var. rewrite zip_with3_length, Hr, Hrv, !Nat.min_id.
    reflexivity.
  - now apply IH.
Qed.

(** A step keeps the shape of the table and of its two slots, the tape's
    gradient for the gathered row being as long as that row. *)
Lemma train_step_same_shapes i target s :
  slots_aligned s ->
  length (fst (gradient (decoder s) (gather (latent_codes s) i) target))
  = length (gather (latent_codes s) i) ->
  same_shape (latent_codes (snd (train_step i target s))) (latent_codes s) /\
  same_shape (m_latent (optimizer (snd (train_step i target s))))
             (latent_codes s) /\
  same_shape (v_latent (optimizer (snd (train_step i target s))))
             (latent_codes s).
Proof.
  intros [Hm Hv] Hg.
  destruct (train_step_optimizer i target s) as (_ & -> & ->).
  rewrite train_step_latent_codes.
  unfold Script.latent_gradient.
  rewrite adam_m_sparse_single, adam_v_sparse_single.
  set (g := fst (gradient (decoder s) (gather (latent_codes s) i) target))
    in *.
  assert (Hrow : forall (a : matrix) r,
            same_shape a (latent_codes s) ->
            nth_error a i = Some r -> length r = length g).
  { intros a r Ha Hr. rewrite Hg. unfold gather.
    rewrite <- (same_shape_nth i Ha).
    now rewrite (nth_error_nth _ _ _ Hr). }
  assert (Hm' : same_shape
                  (update_row i (fun r => vec_add r (scale (1 - beta_1) g))
                     (map (scale beta_1) (m_latent (optimizer s))))
                  (latent_codes s)).
  { eapply same_shape_trans; [|eapply same_shape_trans;
                                 [apply same_shape_scale | exact Hm]].
    apply same_shape_update_row. intros r Hr. unfold vec_add, scale.
    rewrite zip_with_length, length_map.
    rewrite (Hrow _ r (same_shape_trans (same_shape_scale beta_1 _) Hm) Hr).
    apply Nat.min_id. }
  assert (Hv' : same_shape
                  (update_row i
                     (fun r => vec_add r (scale (1 - beta_2)
                                            (zip_with Rmult g g)))
                     (map (scale beta_2) (v_latent (optimizer s))))
                  (latent_codes s)).
  { eapply same_shape_trans; [|eapply same_shape_trans;
                                 [apply same_shape_scale | exact Hv]].
    apply same_shape_update_row. intros r Hr. unfold vec_add, scale.
    rewrite zip_with_length, length_map, zip_with_length, Nat.min_id.
    rewrite (Hrow _ r (same_shape_trans (same_shape_scale beta_2 _) Hv) Hr).
    apply Nat.min_id. }
  pose proof (same_shape_adam_var
                (adam_lr_t learning_rate (S (iterations (optimizer s))))
                Hm' Hv') as Hx.
  auto.
Qed.

Lemma train_step_slots_aligned i target s :
  slots_aligned s ->
  length (fst (gradient (decoder s) (gather (latent_codes s) i) target))
  = length (gather (latent_codes s) i) ->
  slots_aligned (snd (train_step i target s)).
Proof.
  intros Hal Hg.
  destruct (train_step_same_shapes i target Hal Hg) as (Hx & Hm & Hv).
  split; eapply same_shape_trans; eauto using same_shape_sym.
Qed.

Lemma fresh_moment_zero_iff (m g : vector) :
  length g = length m -> Forall (fun c => c = 0) m ->
  (Forall (fun c => c = 0) (vec_add (scale beta_1 m) (scale (1 - beta_1) g))
   <-> Forall (fun c => c = 0) g).
Proof.
  unfold vec_add, scale. revert g.
  induction m as [|a m IH]; intros [|b g] Hlen Hm; try discriminate.
  - cbn [map zip_with]. tauto.
  - inversion Hm as [|? ? Ha Hm']; subst. injection Hlen as Hlen.
    cbn [map zip_with]. specialize (IH g Hlen Hm'). split.
    + intros H. inversion H as [|? ? Hb Hrest]; subst. constructor.
      * unfold beta_1 in Hb. lra.
      * now apply IH.
    + intros H. inversion H as [|? ? Hb Hrest]; subst. constructor.
      * lra.
      * now apply IH.
Qed.

(** Whatever the tape: once a step on sample [j] has seen a non-zero gradient
    for its latent row, the next step on another sample moves row [j] too. *)
Lemma later_step_moves_trained_row i j target_j target_i s :
  slots_aligned s -> (j < length (latent_codes s))%nat -> j <> i ->
  Forall (fun c => c = 0) (nth j (m_latent (optimizer s)) []) ->
  let g := fst (gradient (decoder s) (gather (latent_codes s) j) target_j) in
  length g = length (gather (latent_codes s) j) ->
  ~ Forall (fun c => c = 0) g ->
  let s1 := snd (train_step j target_j s) in
  nth j (latent_codes (snd (train_step i target_i s1))) []
  <> nth j (latent_codes s1) [].
Proof.
  intros Hal Hj Hne Hzero g Hg Hnz s1 Heq.
  assert (Hal1 : slots_aligned s1) by now apply train_step_slots_aligned.
  assert (Hj1 : (j < length (latent_codes s1))%nat).
  { unfold s1. now rewrite train_step_latent_length. }
  destruct (train_step_other_row target_i Hal1 Hj1 Hne) as [_ Hrow].
  rewrite Hrow in Heq. destruct Hal1 as [Hm1 Hv1].
  apply adam_var_decayed_fixed_iff in Heq;
    [| apply adam_lr_t_pos; lia
     | apply (same_shape_nth j Hm1) | apply (same_shape_nth j Hv1)].
  unfold s1 in Heq. rewrite train_step_gathered_row_moment in Heq.
  - apply Hnz. apply fresh_moment_zero_iff in Heq; [exact Heq | | exact Hzero].
    fold g. rewrite Hg. unfold gather. symmetry.
    apply same_shape_nth, Hal.
  - destruct Hal as [Hm _]. now rewrite (same_shape_length Hm).
Qed.

End LatentTable.

(** ** Gradients on a stack of positive layers *)

Section PositiveLayers.

Import Py Np Keras Script.
Local Open Scope R_scope.

Lemma zip_with_Forall {A B C : Type} (P : A -> Prop) (Q : B -> Prop)
      (T : C -> Prop) (f : A -> B -> C) :
  (forall a b, P a -> Q b -> T (f a b)) ->
  forall xs ys, Forall P xs -> Forall Q ys -> Forall T (zip_with f xs ys).
Proof.
  intros Hf xs ys Hxs. revert ys.
  induction Hxs as [|x xs Hx _ IH]; intros ys Hys; cbn [zip_with];
    [constructor|].
  destruct Hys as [|y ys Hy Hys]; constructor; auto.
Qed.

Lemma sum_positive v : positive v -> v <> [] -> 0 < sum v.
Proof.
  intros Hv Hne. destruct Hv as [|c v Hc Hv]; [contradiction|].
  cbn [sum fold_right].
  assert (0 <= fold_right Rplus 0 v).
  { apply sum_nonneg. revert Hv. apply Forall_impl. intros; lra. }
  lra.
Qed.

Lemma scale_positive c v : 0 < c -> positive v -> positive (scale c v).
Proof.
  intros Hc Hv. unfold scale. apply Forall_map. revert Hv.
  apply Forall_impl. intros a Ha. now apply Rmult_lt_0_compat.
Qed.

Lemma matmul_steps_positive pairs : forall acc,
  positive acc ->
  Forall (fun xr : R * vector => 0 < fst xr /\ positive (snd xr)) pairs ->
  positive (fold_left (fun acc xr => vec_add acc (scale (fst xr) (snd xr)))
                      pairs acc).
Proof.
  induction pairs as [|[xi row] pairs IH]; intros acc Hacc Hp;
    cbn [fold_left]; [exact Hacc|].
  inversion Hp as [|? ? [Hxi Hrow] Hrest]; subst. apply IH; [|exact Hrest].
  unfold vec_add.
  apply (zip_with_Forall (P := fun a => 0 < a) (Q := fun a => 0 < a));
    [intros; lra | exact Hacc | now apply scale_positive].
Qed.

Lemma matmul_positive u x k :
  positive x -> x <> [] -> length k = length x -> Forall positive k ->
  positive (matmul u x k).
Proof.
  intros Hx Hne Hlen Hk. unfold matmul.
  destruct Hx as [|x0 x Hx0 Hx]; [contradiction|].
  destruct Hk as [|r0 k Hr0 Hk]; [discriminate|].
  cbn [combine fold_left fst snd].
  apply matmul_steps_positive.
  - unfold vec_add, zeros.
    apply (zip_with_Forall (P := fun a => a = 0) (Q := fun a => 0 < a)).
    + intros a b -> Hb. lra.
    + apply Forall_forall. intros a Ha. now apply repeat_spec in Ha.
    + now apply scale_positive.
  - clear -Hx Hk. revert k Hk.
    induction Hx as [|xi x Hxi _ IH]; intros k Hk; cbn [combine];
      [constructor|].
    destruct Hk as [|row k Hrow Hk]; constructor; auto.
Qed.

Lemma pre_activation_positive in_dim l x :
  positive_layer in_dim l -> positive x -> length x = in_dim ->
  (0 < in_dim)%nat ->
  positive (pre_activation l x) /\ length (pre_activation l x) = units l.
Proof.
  intros ((Hrows & Hcols & Hbias) & Hu & Hk & Hb) Hx Hlen Hin.
  split.
  - unfold pre_activation, vec_add.
    apply (zip_with_Forall (P := fun a => 0 < a) (Q := fun b => 0 <= b));
      [intros; lra | | exact Hb].
    apply matmul_positive; auto; try congruence.
    destruct x; [simpl in Hlen; lia | discriminate].
  - unfold pre_activation, vec_add.
    rewrite zip_with_length, (matmul_length _ Hcols), Hbias.
    apply Nat.min_id.
Qed.

Lemma sigmoid_fn_strict x : 0 < sigmoid_fn x < 1.
Proof.
  unfold sigmoid_fn.
  assert (He : 0 < exp (- x)) by apply exp_pos.
  assert (Hd : 0 < 1 + exp (- x)) by lra.
  split.
  - apply Rdiv_lt_0_compat; lra.
  - apply (Rmult_lt_reg_r (1 + exp (- x))); [assumption|].
    unfold Rdiv. rewrite Rmult_assoc, Rinv_l by lra. lra.
Qed.

Lemma activate_positive a p : 0 < p -> 0 < activate a p.
Proof.
  intros Hp. destruct a; cbn [activate].
  - unfold relu_fn. rewrite Rmax_left; lra.
  - apply sigmoid_fn_strict.
Qed.

Lemma activate_grad_positive a p : 0 < p -> 0 < activate_grad a p.
Proof.
  intros Hp. destruct a; cbn [activate_grad].
  - destruct (Rlt_dec 0 p); [lra | contradiction].
  - pose proof (sigmoid_fn_strict p). apply Rmult_lt_0_compat; lra.
Qed.

Lemma dense_call_positive in_dim l x :
  positive_layer in_dim l -> positive x -> length x = in_dim ->
  (0 < in_dim)%nat ->
  positive (dense_call l x) /\ length (dense_call l x) = units l.
Proof.
  intros Hl Hx Hlen Hin.
  destruct (pre_activation_positive Hl Hx Hlen Hin) as [Hpre Hplen].
  unfold dense_call. split; [|now rewrite length_map].
  apply Forall_map. revert Hpre. apply Forall_impl.
  intros p. apply activate_positive.
Qed.

(** The gradient a positive layer passes to its input is positive. *)
Lemma dense_backward_positive in_dim l x d_out :
  positive_layer in_dim l -> positive x -> length x = in_dim ->
  (0 < in_dim)%nat -> positive d_out -> length d_out = units l ->
  positive (fst (dense_backward l x d_out)) /\
  length (fst (dense_backward l x d_out)) = in_dim.
Proof.
  intros Hl Hx Hlen Hin Hd Hdlen.
  destruct (pre_activation_positive Hl Hx Hlen Hin) as [Hpre Hplen].
  destruct Hl as ((Hrows & Hcols & Hbias) & Hu & Hk & Hb).
  unfold dense_backward. cbn [fst].
  set (d_pre := zip_with (fun d p => d * activate_grad (act l) p) d_out
                         (pre_activation l x)).
  assert (Hdpre : positive d_pre).
  { apply (zip_with_Forall (P := fun a => 0 < a) (Q := fun a => 0 < a));
      [| exact Hd | exact Hpre].
    intros d p Hd' Hp. apply Rmult_lt_0_compat;
      [exact Hd' | now apply activate_grad_positive]. }
  assert (Hdlen' : length d_pre = units l).
  { unfold d_pre. rewrite zip_with_length, Hdlen, Hplen. apply Nat.min_id. }
  split; [|now rewrite length_map].
  apply Forall_map.
  apply Forall_forall. intros row Hrow.
  assert (Hrpos : positive row)
    by exact (proj1 (Forall_forall _ _) Hk row Hrow).
  assert (Hrlen : length row = units l)
    by exact (proj1 (Forall_forall _ _) Hcols row Hrow).
  apply sum_positive.
  - apply (zip_with_Forall (P := fun a => 0 < a) (Q := fun a => 0 < a));
      [| exact Hrpos | exact Hdpre].
    intros. now apply Rmult_lt_0_compat.
  - intros Hnil. apply (f_equal (@length R)) in Hnil.
    rewrite zip_with_length, Hrlen, Hdlen', Nat.min_id in Hnil.
    simpl in Hnil. lia.
Qed.

Lemma backward_positive d_loss model : forall in_dim x,
  positive_model in_dim model -> positive x -> length x = in_dim ->
  (0 < in_dim)%nat ->
  (forall y, positive y -> length y = output_dim in_dim model ->
     positive (d_loss y) /\ length (d_loss y) = length y) ->
  positive (fst (backward model x d_loss)) /\
  length (fst (backward model x d_loss)) = in_dim.
Proof.
  induction model as [|l rest IH]; intros in_dim x Hmodel Hx Hlen Hin Hloss.
  - cbn [backward fst]. destruct (Hloss x Hx Hlen) as [Hp Hl].
    split; [exact Hp | congruence].
  - destruct Hmodel as [Hl Hrest]. cbn [backward].
    destruct (dense_call_positive Hl Hx Hlen Hin) as [Hy Hylen].
    assert (Hu : (0 < units l)%nat) by apply Hl.
    specialize (IH (units l) (dense_call l x) Hrest Hy Hylen Hu Hloss).
    destruct (backward rest (dense_call l x) d_loss) as [d_out grads].
    cbn [fst] in IH. destruct IH as [Hd Hdlen].
    pose proof (dense_backward_positive Hl Hx Hlen Hin Hd Hdlen) as Hb.
    destruct (dense_backward l x d_out) as [d_x g]. exact Hb.
Qed.

Lemma MeanSquaredError_grad_positive n y :
  positive y -> length y = n -> (0 < n)%nat ->
  positive (MeanSquaredError_grad (zeros n) y) /\
  length (MeanSquaredError_grad (zeros n) y) = length y.
Proof.
  intros Hy Hlen Hn. unfold MeanSquaredError_grad. split.
  - apply (zip_with_Forall (P := fun a => 0 < a) (Q := fun a => a = 0)).
    + intros p t Hp ->. apply Rdiv_lt_0_compat; [lra|].
      apply lt_0_INR. lia.
    + exact Hy.
    + apply Forall_forall. intros a Ha. now apply repeat_spec in Ha.
  - rewrite zip_with_length, zeros_length, Hlen. apply Nat.min_id.
Qed.

Lemma dense_build_positive init in_dim u a :
  (forall i j, 0 < init i j) -> (0 < u)%nat ->
  positive_layer in_dim (dense_build init in_dim u a).
Proof.
  intros Hinit Hu. split; [apply dense_build_built|].
  split; [exact Hu|]. cbn [dense_build kernel bias]. split.
  - apply Forall_map, Forall_forall. intros i _.
    apply Forall_map, Forall_forall. intros j _. apply Hinit.
  - apply Forall_forall. intros b Hb. apply repeat_spec in Hb. lra.
Qed.

Lemma sequential_build_positive init spec : forall k in_dim,
  (forall k i j, 0 < init k i j) -> (0 < in_dim)%nat ->
  Forall (fun ua : nat * activation => (0 < fst ua)%nat) spec ->
  positive_model in_dim (sequential_build init k in_dim spec).
Proof.
  induction spec as [|[u a] spec IH]; intros k in_dim Hinit Hin Hspec;
    cbn [sequential_build positive_model]; [exact I|].
  inversion Hspec as [|? ? Hu Hrest]; subst. cbn [fst] in Hu.
  split; [now apply dense_build_positive|].
  cbn [dense_build units]. now apply IH.
Qed.

End PositiveLayers.

Section LatentTableExamples.

Import Py Np Keras Script.
Local Open Scope R_scope.

Lemma demo_start_latent_codes : latent_codes Demo.start = [[1; 1]; [1; 1]].
Proof. reflexivity. Qed.

Lemma demo_start_slots :
  iterations (optimizer Demo.start) = 0%nat /\
  m_latent (optimizer Demo.start) = [[0; 0]; [0; 0]] /\
  v_latent (optimizer Demo.start) = [[0; 0]; [0; 0]].
Proof. repeat split; reflexivity. Qed.

Lemma demo_start_aligned : slots_aligned Demo.start.
Proof.
  destruct demo_start_slots as (_ & Hm & Hv).
  unfold slots_aligned. rewrite Hm, Hv, demo_start_latent_codes.
  split; repeat constructor.
Qed.

Lemma demo_decoder_positive : positive_model LATENT_DIM (decoder Demo.start).
Proof.
  apply sequential_build_positive.
  - intros. lra.
  - unfold LATENT_DIM. lia.
  - unfold decoder_layers. repeat constructor.
Qed.

Lemma demo_first_target :
  nth 0 (x_data_flat Demo.dataset) [] = zeros (28 * 28).
Proof. reflexivity. Qed.

(** In the demo the first step, on sample 0, sees a positive gradient on both
    entries of its latent row. *)
Lemma demo_first_gradient :
  let g := fst (Demo.gradient (decoder Demo.start)
                  (gather (latent_codes Demo.start) 0)
                  (nth 0 (x_data_flat Demo.dataset) [])) in
  positive g /\ length g = 2%nat.
Proof.
  cbv zeta. rewrite demo_first_target, demo_start_latent_codes.
  unfold Demo.gradient, tape_gradient, gather. cbn [nth].
  apply backward_positive.
  - exact demo_decoder_positive.
  - repeat constructor; lra.
  - reflexivity.
  - unfold LATENT_DIM. lia.
  - intros y Hy Hlen.
    change (output_dim 2 (decoder Demo.start)) with (28 * 28)%nat in Hlen.
    apply MeanSquaredError_grad_positive; [exact Hy | exact Hlen | lia].
Qed.

(** C1, counterexample.  In the demo run the second training step, on sample
    1, also moves row 0 of the latent table: the first step, on sample 0, left
    a non-zero first moment on that row. *)
Lemma second_step_moves_row_0 :
  let target i := nth i (x_data_flat Demo.dataset) [] in
  let s1 := snd (train_step Demo.gradient 0 (target 0%nat) Demo.start) in
  let s2 := snd (train_step Demo.gradient 1 (target 1%nat) s1) in
  nth 0 (latent_codes s2) [] <> nth 0 (latent_codes s1) [].
Proof.
  cbv zeta. destruct demo_first_gradient as [Hpos Hlen].
  destruct demo_start_slots as (_ & Hm0 & _).
  apply later_step_moves_trained_row.
  - exact demo_start_aligned.
  - rewrite demo_start_latent_codes. simpl. lia.
  - lia.
  - rewrite Hm0. repeat constructor.
  - rewrite Hlen, demo_start_latent_codes. reflexivity.
  - intros Hzero.
    destruct (fst (Demo.gradient (decoder Demo.start)
                     (gather (latent_codes Demo.start) 0)
                     (nth 0 (x_data_flat Demo.dataset) []))) as [|c g];
      [discriminate|].
    inversion Hpos; inversion Hzero; subst. lra.
Qed.

(** The first step of the demo run, on sample 0, seen from row 1. *)
Lemma train_step_rows_without_gradient_witness :
  let target := nth 0 (x_data_flat Demo.dataset) [] in
  let s1 := snd (train_step Demo.gradient 0 target Demo.start) in
  length (latent_codes s1) = length (latent_codes Demo.start) /\
  nth 1 (m_latent (optimizer s1)) []
  = scale beta_1 (nth 1 (m_latent (optimizer Demo.start)) []) /\
  (nth 1 (latent_codes s1) [] = nth 1 (latent_codes Demo.start) []
   <-> Forall (fun c => c = 0) (nth 1 (m_latent (optimizer Demo.start)) [])).
Proof.
  apply (@train_step_rows_without_gradient Demo.gradient 0 1
           (nth 0 (x_data_flat Demo.dataset) []) Demo.start).
  - exact demo_start_aligned.
  - rewrite demo_start_latent_codes. simpl. lia.
  - lia.
Defined.

End LatentTableExamples.

(** ** The training loop *)

Section Training.

Import Py Np Keras Script.
Local Open Scope R_scope.

Variable dataset : list (matrix * Z).
Variable gradient :
  Sequential -> vector -> vector -> vector * list (matrix * vector).

Local Abbreviation NUM_SHAPES := (NUM_SHAPES dataset).
Local Abbreviation train_on_shape := (train_on_shape dataset gradient).
Local Abbreviation train_on_each_shape := (train_on_each_shape dataset gradient).
Local Abbreviation epoch_body := (epoch_body dataset gradient).
Local Abbreviation epoch_mean_loss := (epoch_mean_loss dataset gradient).
Local Abbreviation train := (train dataset gradient).

Lemma NUM_SHAPES_nonempty : dataset <> [] -> (NUM_SHAPES =? 0)%nat = false.
Proof.
  intros Hne. apply Nat.eqb_neq. unfold Script.NUM_SHAPES, x_data.
  rewrite length_map. destruct dataset; [contradiction | discriminate].
Qed.

Lemma snd_train_on_shape acc i :
  snd (train_on_shape acc i)
  = snd (train_step gradient i (nth i (x_data_flat dataset) []) (snd acc)).
Proof.
  unfold Script.train_on_shape. now destruct (train_step _ _ _ _).
Qed.

(** The inner loop takes one optimizer step per index and touches neither the
    history nor the console. *)
Lemma inner_loop_frame idxs : forall acc,
  let s' := snd (fold_left train_on_shape idxs acc) in
  iterations (optimizer s')
  = (iterations (optimizer (snd acc)) + length idxs)%nat /\
  loss_history s' = loss_history (snd acc) /\
  console s' = console (snd acc).
Proof.
  induction idxs as [|i idxs IH]; intros acc; cbn [fold_left length].
  - repeat split. lia.
  - destruct (IH (train_on_shape acc i)) as (Hit & Hh & Hc).
    cbv zeta. rewrite Hit, Hh, Hc, snd_train_on_shape.
    destruct (train_step_optimizer gradient i
                (nth i (x_data_flat dataset) []) (snd acc)) as (-> & _).
    destruct (train_step_frame gradient i
                (nth i (x_data_flat dataset) []) (snd acc)) as (-> & -> & _).
    repeat split. lia.
Qed.

Lemma train_on_each_shape_frame s :
  iterations (optimizer (snd (train_on_each_shape s)))
  = (iterations (optimizer s) + NUM_SHAPES)%nat /\
  loss_history (snd (train_on_each_shape s)) = loss_history s /\
  console (snd (train_on_each_shape s)) = console s.
Proof.
  unfold Script.train_on_each_shape.
  destruct (inner_loop_frame (seq 0 NUM_SHAPES) (0, s)) as (Hit & Hh & Hc).
  rewrite length_seq in Hit. auto.
Qed.

(** The progress test of the loop, in the words of the specification. *)
Lemma display_test_spec (di : Z) (e : nat) :
  di <> 0%Z ->
  ((Z.of_nat e mod di =? 0)%Z || (e =? 1)%nat = true
   <-> e = 1%nat \/ (di | Z.of_nat e)%Z).
Proof.
  intros Hdi. rewrite orb_true_iff, Z.eqb_eq, Nat.eqb_eq.
  rewrite (Z.mod_divide _ _ Hdi). tauto.
Qed.

(** One epoch on a non-empty dataset, with a non-zero display interval. *)
Lemma epoch_body_completes (epochs : nat) (di : Z) (e : nat) (s : state) :
  dataset <> [] -> di <> 0%Z ->
  exists s',
    epoch_body epochs di e s = Completed s' /\
    loss_history s' = loss_history s ++ [epoch_mean_loss s] /\
    iterations (optimizer s')
    = (iterations (optimizer s) + NUM_SHAPES)%nat /\
    console s'
    = console s ++
      (if (Z.of_nat e mod di =? 0)%Z || (e =? 1)%nat
       then [mkProgress e epochs (epoch_mean_loss s)] else []).
Proof.
  intros Hne Hdi. unfold Script.epoch_body, Script.epoch_mean_loss.
  destruct (train_on_each_shape_frame s) as (Hit & Hh & Hc).
  destruct (train_on_each_shape s) as [epoch_loss s1]. cbn [fst snd] in *.
  rewrite (NUM_SHAPES_nonempty Hne). unfold py_mod.
  apply Z.eqb_neq in Hdi. rewrite Hdi.
  destruct ((Z.of_nat e mod di =? 0)%Z || (e =? 1)%nat);
    eexists; (split; [reflexivity|]); cbn [loss_history console optimizer];
    rewrite Hit, Hh, Hc; repeat split.
  now rewrite app_nil_r.
Qed.

Lemma for_each_app body xs ys s :
  for_each body (xs ++ ys) s
  = match for_each body xs s with
    | Completed s' => for_each body ys s'
    | Uncaught e s' => Uncaught e s'
    end.
Proof.
  revert s; induction xs as [|x xs IH]; intros s; cbn [app for_each];
    [reflexivity|].
  destruct (body x s); [apply IH | reflexivity].
Qed.

(** The effect of [n] consecutive epochs, numbered from [a], on a non-empty
    dataset: the mean losses appended to the history, the optimizer steps
    taken, and the progress lines printed. *)
Lemma epochs_run (epochs : nat) (di : Z) :
  dataset <> [] -> di <> 0%Z ->
  forall n a s,
  exists s' added lines,
    for_each (epoch_body epochs di) (seq a n) s = Completed s' /\
    loss_history s' = loss_history s ++ added /\
    length added = n /\
    (n <> 0%nat -> nth_error added 0 = Some (epoch_mean_loss s)) /\
    iterations (optimizer s')
    = (iterations (optimizer s) + n * NUM_SHAPES)%nat /\
    console s' = console s ++ lines /\
    (forall line, In line lines ->
       (a <= shown_epoch line < a + n)%nat /\
       (shown_epoch line = 1%nat \/ (di | Z.of_nat (shown_epoch line))%Z) /\
       shown_epochs line = epochs /\
       nth_error added (shown_epoch line - a) = Some (shown_loss line)) /\
    (forall e, (a <= e < a + n)%nat ->
       e = 1%nat \/ (di | Z.of_nat e)%Z -> In e (map shown_epoch lines)).
Proof.
  intros Hne Hdi. induction n as [|n IH]; intros a s.
  - exists s, [], []. cbn [seq for_each].
    rewrite !app_nil_r. repeat split; try easy; try lia.
  - destruct (epoch_body_completes epochs a s Hne Hdi)
      as (s1 & Hrun1 & Hh1 & Hit1 & Hc1).
    destruct (IH (S a) s1)
      as (s' & added & lines & Hrun & Hh & Hlen & _ & Hit & Hc & Hin & Hcov).
    exists s', (epoch_mean_loss s :: added).
    exists ((if (Z.of_nat a mod di =? 0)%Z || (a =? 1)%nat
             then [mkProgress a epochs (epoch_mean_loss s)] else [])
            ++ lines).
    cbn [seq for_each]. rewrite Hrun1.
    split; [exact Hrun|].
    split; [rewrite Hh, Hh1, <- app_assoc; reflexivity|].
    split; [cbn [length]; now rewrite Hlen|].
    split; [reflexivity|].
    split; [rewrite Hit, Hit1; simpl; lia|].
    split; [rewrite Hc, Hc1, <- app_assoc; reflexivity|].
    split.
    + intros line Hline. apply in_app_or in Hline as [Hline | Hline].
      * destruct ((Z.of_nat a mod di =? 0)%Z || (a =? 1)%nat) eqn:Hshow;
          [|contradiction].
        destruct Hline as [<- | []]. cbn [shown_epoch shown_epochs shown_loss].
        repeat split; try lia.
        -- now apply display_test_spec.
        -- now rewrite Nat.sub_diag.
      * destruct (Hin line Hline) as (Hrange & Hshown & Hep & Hloss).
        repeat split; try lia; try assumption.
        replace (shown_epoch line - a)%nat
          with (S (shown_epoch line - S a)) by lia.
        exact Hloss.
    + intros e He Hshown. rewrite map_app. apply in_or_app.
      destruct (Nat.eq_dec e a) as [-> | Hea].
      * left. apply (display_test_spec a Hdi) in Hshown. rewrite Hshown.
        left. reflexivity.
      * right. apply Hcov; [lia | exact Hshown].
Qed.

End Training.

Section EmptyDataset.

Import Py Np Keras Script.
Local Open Scope R_scope.

Variable gradient :
  Sequential -> vector -> vector -> vector * list (matrix * vector).

(** The first epoch on an empty dataset: no step is taken, and the division
    of the epoch loss by the sample count raises. *)
Lemma train_on_nothing (epochs : nat) (di : Z) (s : state) :
  (1 <= epochs)%nat ->
  train [] gradient epochs di s
  = Uncaught (ZeroDivisionError "division by zero") (clear_history s).
Proof.
  intros Hep. destruct epochs as [|n]; [lia | reflexivity].
Qed.

(** C8 (amended).  The script makes no check of the sample count.  With an
    empty dataset training still stops at once, before any optimizer step
    and before anything is appended or printed: the division of the epoch
    loss by the sample count raises Python's [ZeroDivisionError] ("division
    by zero"), which nothing catches.  Training that completes therefore had
    at least one sample. *)
Theorem empty_dataset_aborts_training (epochs : nat) (di : Z) (s : state) :
  (1 <= epochs)%nat ->
  train [] gradient epochs di s
  = Uncaught (ZeroDivisionError "division by zero") (clear_history s) /\
  forall dataset s',
    train dataset gradient epochs di s = Completed s' ->
    (1 <= NUM_SHAPES dataset)%nat.
Proof.
  intros Hep. pose proof (train_on_nothing di s Hep) as Hempty.
  split; [exact Hempty|].
  intros [|sample dataset] s' Hrun.
  - rewrite Hempty in Hrun. discriminate.
  - unfold NUM_SHAPES, x_data. simpl. lia.
Qed.

End EmptyDataset.

Section TrainingExamples.

Import Py Np Keras Script.
Local Open Scope R_scope.

(** C8, counterexample.  What escapes from training on an empty dataset is
    the interpreter's arithmetic error, not an error that rejects the
    configuration. *)
Lemma empty_dataset_error_is_arithmetic :
  ~ exists e s',
      train [] Demo.gradient 3 display_interval Demo.start = Uncaught e s' /\
      configuration_error e.
Proof.
  intros (e & s' & Hrun & Hconf).
  rewrite train_on_nothing in Hrun by lia.
  injection Hrun as <- _. exact Hconf.
Qed.

(** No shape at all, three epochs asked for. *)
Lemma empty_dataset_aborts_training_witness :
  train [] Demo.gradient 3 display_interval Demo.start
  = Uncaught (ZeroDivisionError "division by zero") (clear_history Demo.start) /\
  forall dataset s',
    train dataset Demo.gradient 3 display_interval Demo.start = Completed s' ->
    (1 <= NUM_SHAPES dataset)%nat.
Proof.
  apply (@empty_dataset_aborts_training Demo.gradient 3 display_interval
           Demo.start). lia.
Defined.

End TrainingExamples.

(** ** Training keeps the shapes *)

Section Shapes.

Import Py Np Keras Script.
Local Open Scope R_scope.

Variable dataset : list (matrix * Z).
Variable gradient :
  Sequential -> vector -> vector -> vector * list (matrix * vector).

(** Every image flattens to 28 * 28 values. *)
Hypothesis images_28x28 :
  Forall (fun t => length t = (28 * 28)%nat) (x_data_flat dataset).

(** On a decoder of the script's architecture, a latent row and a flattened
    image, the tape returns gradients of the shapes of the row and of every
    layer's kernel and bias. *)
Hypothesis gradient_shapes : forall model z target,
  has_architecture model -> length z = LATENT_DIM ->
  length target = (28 * 28)%nat ->
  length (fst (gradient model z target)) = LATENT_DIM /\
  Forall2 layer_aligned model (snd (gradient model z target)).

Lemma same_shape_zip_rows (f : vector -> vector -> vector) a b c :
  (forall r r', length r = length r' -> length (f r r') = length r) ->
  same_shape a c -> same_shape b c -> same_shape (zip_with f a b) c.
Proof.
  intros Hf Ha. revert b. induction Ha as [|ra rc a c Hr _ IH]; intros b Hb;
    inversion Hb as [|rb ? b' ? Hrb Hb']; subst; cbn [zip_with]; constructor.
  - rewrite Hf; congruence.
  - now apply IH.
Qed.

Lemma adam_m_dense_length m g :
  length m = length g -> length (adam_m_dense m g) = length m.
Proof.
  intros H. unfold adam_m_dense. rewrite zip_with_length, <- H.
  apply Nat.min_id.
Qed.

Lemma adam_v_dense_length v g :
  length v = length g -> length (adam_v_dense v g) = length v.
Proof.
  intros H. unfold adam_v_dense. rewrite zip_with_length, <- H.
  apply Nat.min_id.
Qed.

Lemma same_shape_built in_dim u (k k' : matrix) :
  same_shape k' k -> length k = in_dim ->
  Forall (fun row => length row = u) k ->
  length k' = in_dim /\ Forall (fun row => length row = u) k'.
Proof.
  intros H. induction H as [|r' r k' k Hr _ IH] in in_dim |- *;
    intros Hlen Hrows.
  - split; [exact Hlen | constructor].
  - inversion Hrows as [|? ? Hu Hrest]; subst.
    destruct (IH (length k) eq_refl Hrest) as [Hl Hf].
    split; [simpl; now rewrite Hl | constructor; [congruence | exact Hf]].
Qed.

(** One layer: Adam keeps its width, activation and shapes, and the shapes of
    both slots. *)
Lemma adam_layer_built lr_t in_dim l m v g :
  built in_dim l -> layer_aligned l m -> layer_aligned l v ->
  layer_aligned l g ->
  let '(l', m', v') := adam_layer lr_t l m v g in
  units l' = units l /\ act l' = act l /\ built in_dim l' /\
  layer_aligned l' m' /\ layer_aligned l' v'.
Proof.
  intros (Hrows & Hcols & Hbias) [Hmk Hmb] [Hvk Hvb] [Hgk Hgb].
  unfold adam_layer.
  set (mk := zip_with adam_m_dense (fst m) (fst g)).
  set (vk := zip_with adam_v_dense (fst v) (fst g)).
  set (mb := adam_m_dense (snd m) (snd g)).
  set (vb := adam_v_dense (snd v) (snd g)).
  assert (Hmk' : same_shape mk (kernel l)).
  { apply same_shape_zip_rows; auto. intros. now apply adam_m_dense_length. }
  assert (Hvk' : same_shape vk (kernel l)).
  { apply same_shape_zip_rows; auto. intros. now apply adam_v_dense_length. }
  assert (Hmb' : length mb = length (bias l)).
  { unfold mb. rewrite adam_m_dense_length; congruence. }
  assert (Hvb' : length vb = length (bias l)).
  { unfold vb. rewrite adam_v_dense_length; congruence. }
  pose proof (same_shape_adam_var lr_t Hmk' Hvk') as Hk.
  assert (Hb : length (adam_var lr_t (bias l) mb vb) = length (bias l)).
  { unfold adam_var. rewrite zip_with3_length, Hmb', Hvb', !Nat.min_id.
    reflexivity. }
  destruct (same_shape_built Hk Hrows Hcols) as [Hrows' Hcols'].
  cbn [units act]. repeat split; cbn [kernel bias units fst snd];
    try assumption; try congruence.
  - eapply same_shape_trans; [exact Hmk' | now apply same_shape_sym].
  - eapply same_shape_trans; [exact Hvk' | now apply same_shape_sym].
Qed.

Lemma adam_layers_built lr_t spec : forall in_dim model ms vs gs,
  built_from in_dim spec model ->
  Forall2 layer_aligned model ms -> Forall2 layer_aligned model vs ->
  Forall2 layer_aligned model gs ->
  let '(model', ms', vs') := adam_layers lr_t model ms vs gs in
  built_from in_dim spec model' /\
  Forall2 layer_aligned model' ms' /\ Forall2 layer_aligned model' vs'.
Proof.
  induction spec as [|[u a] spec IH]; intros in_dim model ms vs gs Hb Hm Hv Hg.
  - destruct model; [|contradiction]. cbn [adam_layers].
    repeat split; constructor.
  - destruct model as [|l model]; [contradiction|].
    destruct Hb as (Hu & Ha & Hl & Hrest).
    inversion Hm as [|? m ? ms' Hlm Hms]; subst.
    inversion Hv as [|? v ? vs' Hlv Hvs]; subst.
    inversion Hg as [|? g ? gs' Hlg Hgs]; subst.
    cbn [adam_layers].
    pose proof (adam_layer_built lr_t Hl Hlm Hlv Hlg) as H1.
    destruct (adam_layer lr_t l m v g) as [[l1 m1] v1].
    destruct H1 as (Hu1 & Ha1 & Hb1 & Hm1 & Hv1).
    pose proof (IH _ model ms' vs' gs' Hrest Hms Hvs Hgs) as H2.
    destruct (adam_layers lr_t model ms' vs' gs') as [[rest ms1] vs1].
    destruct H2 as (Hb2 & Hm2 & Hv2).
    cbn [built_from].
    split; [auto | split; constructor; assumption].
Qed.

Lemma same_shape_rows u (a b : matrix) :
  same_shape a b -> Forall (fun row => length row = u) b ->
  Forall (fun row => length row = u) a.
Proof.
  intros H Hb. now destruct (same_shape_built H eq_refl Hb).
Qed.

Lemma train_step_shapes_kept i s :
  (i < NUM_SHAPES dataset)%nat -> shapes_kept dataset s ->
  shapes_kept dataset
    (snd (train_step gradient i (nth i (x_data_flat dataset) []) s)).
Proof.
  intros Hi ([Harch [Hdm Hdv]] & Hal & Hlen & Hrows).
  set (target := nth i (x_data_flat dataset) []).
  assert (Hz : length (gather (latent_codes s) i) = LATENT_DIM).
  { unfold gather. revert Hrows. rewrite Forall_forall. intros Hrows.
    apply Hrows, nth_In. now rewrite Hlen. }
  assert (Ht : length target = (28 * 28)%nat).
  { unfold target. revert images_28x28. rewrite Forall_forall.
    intros Himg. apply Himg, nth_In.
    unfold x_data_flat. now rewrite length_map. }
  destruct (gradient_shapes (decoder s) (gather (latent_codes s) i) target
              Harch Hz Ht) as [Hgz Hgd].
  assert (Hg : length (fst (gradient (decoder s) (gather (latent_codes s) i)
                                     target))
               = length (gather (latent_codes s) i)) by congruence.
  destruct (train_step_same_shapes gradient i target Hal Hg) as (Hx & _ & _).
  split; [|split; [now apply train_step_slots_aligned|split]].
  - unfold train_step, apply_gradients.
    destruct (gradient _ _ _) as [g_z g_decoder]. cbn [snd] in Hgd |- *.
    pose proof (@adam_layers_built
                  (adam_lr_t learning_rate (S (iterations (optimizer s))))
                  decoder_layers LATENT_DIM _ _ _ _ Harch Hdm Hdv Hgd) as H.
    destruct (adam_layers _ _ _ _ _) as [[dec md] vd].
    destruct H as (Harch' & Hm' & Hv').
    repeat split; assumption.
  - now rewrite train_step_latent_length.
  - exact (same_shape_rows Hx Hrows).
Qed.

Lemma inner_loop_shapes_kept idxs : forall acc,
  Forall (fun i => (i < NUM_SHAPES dataset)%nat) idxs ->
  shapes_kept dataset (snd acc) ->
  shapes_kept dataset
    (snd (fold_left (train_on_shape dataset gradient) idxs acc)).
Proof.
  induction idxs as [|i idxs IH]; intros acc Hidx Hacc; cbn [fold_left];
    [exact Hacc|].
  inversion Hidx as [|? ? Hi Hrest]; subst.
  apply IH; [exact Hrest|].
  rewrite snd_train_on_shape. now apply train_step_shapes_kept.
Qed.

(** Appending to the history or to the console does not touch the model. *)
Lemma shapes_kept_model s s' :
  latent_codes s' = latent_codes s -> decoder s' = decoder s ->
  optimizer s' = optimizer s -> shapes_kept dataset s ->
  shapes_kept dataset s'.
Proof.
  unfold shapes_kept, well_shaped, decoder_slots_aligned, slots_aligned.
  now intros -> -> ->.
Qed.

Lemma epoch_body_shapes_kept epochs di e s s' :
  shapes_kept dataset s ->
  epoch_body dataset gradient epochs di e s = Completed s' ->
  shapes_kept dataset s'.
Proof.
  intros Hs. unfold epoch_body.
  assert (H1 : shapes_kept dataset
                 (snd (train_on_each_shape dataset gradient s))).
  { apply inner_loop_shapes_kept; [|exact Hs].
    apply Forall_forall. intros i Hi. apply in_seq in Hi. lia. }
  destruct (train_on_each_shape dataset gradient s) as [epoch_loss s1].
  cbn [snd] in H1.
  destruct (NUM_SHAPES dataset =? 0)%nat; [discriminate|].
  destruct (py_mod _ _) as [r|]; [|discriminate].
  destruct ((r =? 0)%Z || (e =? 1)%nat); intros Heq;
    injection Heq as <-; revert H1; apply shapes_kept_model; reflexivity.
Qed.

Lemma for_each_shapes_kept epochs di xs : forall s s',
  shapes_kept dataset s ->
  for_each (epoch_body dataset gradient epochs di) xs s = Completed s' ->
  shapes_kept dataset s'.
Proof.
  induction xs as [|x xs IH]; intros s s' Hs; cbn [for_each].
  - intros Heq. injection Heq as <-. exact Hs.
  - destruct (epoch_body dataset gradient epochs di x s) as [s1|] eqn:E;
      [|discriminate].
    apply IH. eapply epoch_body_shapes_kept; eauto.
Qed.

Lemma initial_state_shapes_kept normal init :
  shapes_kept dataset (initial_state dataset normal init).
Proof.
  assert (Hz : forall a, same_shape (zeros_like a) a).
  { induction a; cbn [zeros_like map]; constructor; auto using length_map. }
  assert (Hl : forall model,
            Forall2 layer_aligned model (map layer_slots model)).
  { induction model as [|l model IH]; cbn [map]; constructor; [|exact IH].
    unfold layer_aligned, layer_slots. cbn [fst snd].
    split; [apply Hz | apply length_map]. }
  unfold shapes_kept, well_shaped, decoder_slots_aligned, slots_aligned,
    initial_state.
  cbn [latent_codes decoder optimizer m_latent v_latent m_decoder v_decoder].
  split; [split; [apply create_decoder_has_architecture | split; apply Hl]|].
  split; [split; apply Hz|].
  split.
  - now rewrite length_map, length_seq.
  - apply Forall_map, Forall_forall. intros i _.
    now rewrite length_map, length_seq.
Qed.

(** Training from the initial state ends in a state of the same shapes: the
    decoder still has the architecture of [create_decoder], so the range and
    export results apply to it, and the latent slots still match the latent
    table. *)
Lemma trained_state_shapes epochs di normal init s' :
  train dataset gradient epochs di (initial_state dataset normal init)
  = Completed s' ->
  shapes_kept dataset s'.
Proof.
  unfold train, training_loop. apply for_each_shapes_kept.
  generalize (initial_state_shapes_kept normal init).
  apply shapes_kept_model; reflexivity.
Qed.

End Shapes.

(** ** The shapes of the gradients of reverse-mode differentiation *)

Section TapeShapes.

Import Py Np Keras Script.
Local Open Scope R_scope.

Lemma pre_activation_length in_dim l x :
  built in_dim l -> length (pre_activation l x) = units l.
Proof.
  intros H. pose proof (dense_call_length x H) as Hd.
  unfold dense_call in Hd. now rewrite length_map in Hd.
Qed.

Lemma outer_product_shape u (d : vector) : forall (x : vector) (k : matrix),
  length x = length k -> Forall (fun row => length row = u) k ->
  length d = u ->
  same_shape (map (fun xi => scale xi d) x) k.
Proof.
  induction x as [|xi x IH]; intros [|row k] Hlen Hk Hd; try discriminate;
    cbn [map]; constructor.
  - inversion Hk; subst. unfold scale. rewrite length_map. congruence.
  - inversion Hk; subst. apply IH; auto.
Qed.

Lemma dense_backward_shapes in_dim l x d_out :
  built in_dim l -> length x = in_dim -> length d_out = units l ->
  length (fst (dense_backward l x d_out)) = in_dim /\
  layer_aligned l (snd (dense_backward l x d_out)).
Proof.
  intros Hl Hx Hd. pose proof (pre_activation_length x Hl) as Hpre.
  destruct Hl as (Hrows & Hcols & Hbias).
  unfold dense_backward, layer_aligned. cbn [fst snd].
  assert (Hdpre : length (zip_with (fun d p => d * activate_grad (act l) p)
                            d_out (pre_activation l x)) = units l).
  { rewrite zip_with_length, Hd, Hpre. apply Nat.min_id. }
  split; [now rewrite length_map|].
  split; [|congruence].
  apply outer_product_shape with (u := units l); auto. congruence.
Qed.

Lemma backward_shapes d_loss spec : forall in_dim model x,
  built_from in_dim spec model -> length x = in_dim ->
  (forall y, length y = output_dim in_dim model ->
     length (d_loss y) = length y) ->
  length (fst (backward model x d_loss)) = in_dim /\
  Forall2 layer_aligned model (snd (backward model x d_loss)).
Proof.
  induction spec as [|[u a] spec IH]; intros in_dim model x Hb Hx Hloss.
  - destruct model; [|contradiction]. cbn [backward fst snd].
    split; [|constructor]. rewrite Hloss; [exact Hx | exact Hx].
  - destruct model as [|l rest]; [contradiction|].
    destruct Hb as (Hu & Ha & Hl & Hrest). cbn [backward].
    pose proof (dense_call_length x Hl) as Hy.
    assert (Hloss' : forall y, length y = output_dim u rest ->
                       length (d_loss y) = length y).
    { intros y Hylen. apply Hloss. rewrite Hylen. unfold output_dim.
      cbn [fold_left]. now rewrite Hu. }
    rewrite Hu in Hy.
    destruct (IH u rest (dense_call l x) Hrest Hy Hloss') as [Hd Hg].
    destruct (backward rest (dense_call l x) d_loss) as [d_out grads].
    cbn [fst snd] in Hd, Hg. rewrite <- Hu in Hd.
    destruct (@dense_backward_shapes in_dim l x d_out Hl Hx Hd)
      as [Hdx Hal].
    destruct (dense_backward l x d_out) as [d_x g]. cbn [fst snd] in *.
    split; [exact Hdx | constructor; assumption].
Qed.

Lemma output_dim_decoder model :
  has_architecture model -> output_dim LATENT_DIM model = (28 * 28)%nat.
Proof.
  unfold has_architecture, decoder_layers.
  unfold output_dim.
  destruct model as [|l1 [|l2 [|l3 [|l4 [|l5 rest]]]]];
    cbn [built_from fold_left]; tauto.
Qed.

(** Reverse-mode differentiation returns gradients of the right shapes. *)
Lemma tape_gradient_shapes model z target :
  has_architecture model -> length z = LATENT_DIM ->
  length target = (28 * 28)%nat ->
  length (fst (tape_gradient model z target)) = LATENT_DIM /\
  Forall2 layer_aligned model (snd (tape_gradient model z target)).
Proof.
  intros Harch Hz Ht. unfold tape_gradient.
  apply backward_shapes with (spec := decoder_layers); auto.
  intros y Hy. rewrite output_dim_decoder in Hy by exact Harch.
  unfold MeanSquaredError_grad. rewrite zip_with_length, Hy, Ht.
  apply Nat.min_id.
Qed.

(** With 28x28 images and the gradients of reverse-mode differentiation,
    whatever the initial draws, the state training ends in has the shapes it
    started with. *)
Lemma training_keeps_shapes dataset epochs di normal init s' :
  Forall (fun t => length t = (28 * 28)%nat) (x_data_flat dataset) ->
  train dataset tape_gradient epochs di (initial_state dataset normal init)
  = Completed s' ->
  has_architecture (decoder s') /\ slots_aligned s'.
Proof.
  intros Himg Hrun.
  destruct (@trained_state_shapes dataset tape_gradient Himg
              tape_gradient_shapes epochs di normal init s' Hrun)
    as ([Harch _] & Hal & _).
  split; assumption.
Qed.

End TapeShapes.

(** ** What holds once training has run *)

Section AfterTraining.

Import Py Np Keras Script.
Local Open Scope R_scope.

Variable dataset : list (matrix * Z).

(** On a non-empty dataset of 28x28 images, with a non-zero display interval
    and the gradients of reverse-mode differentiation, training from the
    initial state completes in a state that has kept every shape. *)
Lemma training_completes_in_shape epochs di normal init :
  dataset <> [] -> di <> 0%Z ->
  Forall (fun t => length t = (28 * 28)%nat) (x_data_flat dataset) ->
  exists s',
    train dataset tape_gradient epochs di (initial_state dataset normal init)
    = Completed s' /\
    shapes_kept dataset s'.
Proof.
  intros Hne Hdi Himg.
  destruct (@epochs_run dataset tape_gradient epochs di Hne Hdi epochs 1
              (clear_history (initial_state dataset normal init)))
    as (s' & _ & _ & Hrun & _).
  exists s'. split; [exact Hrun|].
  eapply (@for_each_shapes_kept dataset tape_gradient Himg
            tape_gradient_shapes); [|exact Hrun].
  generalize (initial_state_shapes_kept dataset normal init).
  apply shapes_kept_model; reflexivity.
Qed.

(** X1.  Training keeps every shape it started with: the latent table still
    has one row of [LATENT_DIM] entries per sample, the decoder still is the
    stack [create_decoder] built, and the optimizer's slots still have the
    shapes of the variables they belong to. *)
Theorem training_keeps_every_shape epochs di normal init :
  dataset <> [] -> di <> 0%Z ->
  Forall (fun t => length t = (28 * 28)%nat) (x_data_flat dataset) ->
  exists s',
    train dataset tape_gradient epochs di (initial_state dataset normal init)
    = Completed s' /\
    length (latent_codes s') = NUM_SHAPES dataset /\
    Forall (fun row => length row = LATENT_DIM) (latent_codes s') /\
    has_architecture (decoder s') /\
    slots_aligned s' /\ decoder_slots_aligned s'.
Proof.
  intros Hne Hdi Himg.
  destruct (training_completes_in_shape epochs normal init Hne Hdi Himg)
    as (s' & Hrun & [Harch Hslots] & Hal & Hlen & Hrows).
  exists s'. auto 10.
Qed.

(** A decoder of the script's architecture returns 784 values in [0, 1]. *)
Lemma architecture_output model z :
  has_architecture model ->
  length (predict model z) = 784%nat /\
  Forall (fun y => 0 <= y <= 1) (predict model z).
Proof.
  intros H. apply has_architecture_inv in H as (front & l & -> & U & A & B).
  unfold predict, call. rewrite fold_left_app. cbn [fold_left].
  split.
  - rewrite (dense_call_length _ B), U. reflexivity.
  - unfold dense_call. rewrite A. apply Forall_map, Forall_forall.
    intros x _. apply sigmoid_fn_range.
Qed.

(** X2.  Training followed by the export: [set_weights] accepts the trained
    weights (no [ValueError]), and the exported model decodes every latent
    point to the same 784 values in [0, 1] as the trained decoder. *)
Theorem export_after_training epochs di normal init init_export :
  dataset <> [] -> di <> 0%Z ->
  Forall (fun t => length t = (28 * 28)%nat) (x_data_flat dataset) ->
  exists s' exported,
    train dataset tape_gradient epochs di (initial_state dataset normal init)
    = Completed s' /\
    export_model init_export s' = Ok exported /\
    forall z,
      predict exported z = predict (decoder s') z /\
      length (predict exported z) = 784%nat /\
      Forall (fun y => 0 <= y <= 1) (predict exported z).
Proof.
  intros Hne Hdi Himg.
  destruct (training_completes_in_shape epochs normal init Hne Hdi Himg)
    as (s' & Hrun & [Harch _] & _).
  exists s', (decoder s'). split; [exact Hrun|]. split.
  - unfold export_model.
    apply set_weights_get_weights
      with (spec := decoder_layers) (in_dim := LATENT_DIM);
      [apply create_decoder_has_architecture | exact Harch].
  - intros z. split; [reflexivity|]. now apply architecture_output.
Qed.

End AfterTraining.

(** ** Images, flat and square *)

Section Images.

Import Py Np Keras Script.
Local Open Scope R_scope.

Lemma sum_app a b : sum (a ++ b) = sum a + sum b.
Proof.
  unfold sum. induction a as [|x a IH]; cbn [app fold_right]; lra.
Qed.

Lemma zip_with_app {A B C : Type} (f : A -> B -> C) a1 b1 a2 b2 :
  length a1 = length b1 ->
  zip_with f (a1 ++ a2) (b1 ++ b2) = zip_with f a1 b1 ++ zip_with f a2 b2.
Proof.
  revert b1. induction a1 as [|x a1 IH]; intros [|y b1] Hlen;
    try discriminate; cbn [app zip_with]; [reflexivity|].
  f_equal. apply IH. now injection Hlen.
Qed.

Lemma zip_with_ext {A B C : Type} (f g : A -> B -> C) :
  (forall a b, f a b = g a b) ->
  forall xs ys, zip_with f xs ys = zip_with g xs ys.
Proof.
  intros Hfg. induction xs as [|x xs IH]; intros [|y ys]; cbn [zip_with];
    try reflexivity.
  now rewrite Hfg, IH.
Qed.

Lemma firstn_exact {A : Type} (r t : list A) :
  firstn (length r) (r ++ t) = r.
Proof.
  rewrite firstn_app, firstn_all, Nat.sub_diag. cbn [firstn].
  apply app_nil_r.
Qed.

Lemma skipn_exact {A : Type} (r t : list A) :
  skipn (length r) (r ++ t) = t.
Proof.
  rewrite skipn_app, skipn_all, Nat.sub_diag. reflexivity.
Qed.

Lemma reshape_flatten rows cols : forall m : matrix,
  length m = rows -> Forall (fun row => length row = cols) m ->
  reshape rows cols (flatten m) = m.
Proof.
  induction rows as [|rows IH]; intros [|r m] Hlen Hrows; try discriminate;
    [reflexivity|].
  inversion Hrows as [|? ? Hr Hm]; subst.
  unfold flatten. cbn [concat reshape].
  rewrite firstn_exact, skipn_exact. f_equal.
  apply IH; [now injection Hlen | exact Hm].
Qed.

Lemma reshape_shape rows cols : forall v : vector,
  length v = (rows * cols)%nat ->
  length (reshape rows cols v) = rows /\
  Forall (fun row => length row = cols) (reshape rows cols v).
Proof.
  induction rows as [|rows IH]; intros v Hlen; cbn [reshape].
  - split; [reflexivity | constructor].
  - destruct (IH (skipn cols v)) as [Hl Hf].
    { rewrite length_skipn, Hlen. simpl. lia. }
    split; [simpl; now rewrite Hl|].
    constructor; [|exact Hf].
    rewrite length_firstn, Hlen. simpl. lia.
Qed.

Lemma flatten_reshape rows cols : forall v : vector,
  length v = (rows * cols)%nat -> flatten (reshape rows cols v) = v.
Proof.
  induction rows as [|rows IH]; intros v Hlen; unfold flatten;
    cbn [reshape concat].
  - destruct v; [reflexivity | discriminate].
  - fold (flatten (reshape rows cols (skipn cols v))).
    rewrite IH; [apply firstn_skipn|].
    rewrite length_skipn, Hlen. simpl. lia.
Qed.

(** X3.  Flattening and reshaping are inverse to each other on arrays of
    matching size: a [rows] x [cols] image is recovered from its flat form,
    and a flat vector of [rows * cols] values from its [rows] x [cols]
    form, which has exactly that shape. *)
Theorem reshape_flatten_round_trip (rows cols : nat) :
  (forall m : matrix,
     length m = rows -> Forall (fun row => length row = cols) m ->
     reshape rows cols (flatten m) = m) /\
  (forall v : vector,
     length v = (rows * cols)%nat ->
     flatten (reshape rows cols v) = v /\
     length (reshape rows cols v) = rows /\
     Forall (fun row => length row = cols) (reshape rows cols v)).
Proof.
  split.
  - apply reshape_flatten.
  - intros v Hv. split; [now apply flatten_reshape|].
    now apply reshape_shape.
Qed.

Lemma sum2_zip_rows (f : R -> R -> R) (a b : matrix) :
  same_shape a b ->
  sum2 (zip_with (zip_with f) a b) = sum (zip_with f (concat a) (concat b)).
Proof.
  unfold sum2. induction 1 as [|ra rb a b Hr _ IH];
    cbn [zip_with map concat]; [reflexivity|].
  rewrite (zip_with_app f _ _ _ _ Hr), sum_app.
  cbn [sum fold_right]. unfold sum in IH |- *. now rewrite IH.
Qed.

Lemma flatten_length cols (m : matrix) :
  Forall (fun row => length row = cols) m ->
  length (flatten m) = (length m * cols)%nat.
Proof.
  unfold flatten. induction 1 as [|r m Hr _ IH]; cbn [concat length];
    [reflexivity|].
  rewrite length_app, Hr, IH. reflexivity.
Qed.

Lemma rows_same_shape u (a b : matrix) :
  length a = length b ->
  Forall (fun row => length row = u) a ->
  Forall (fun row => length row = u) b -> same_shape a b.
Proof.
  intros Hlen Ha. revert b Hlen.
  induction Ha as [|ra a Hra _ IH]; intros [|rb b] Hlen Hb;
    try discriminate; constructor.
  - inversion Hb; subst. congruence.
  - inversion Hb; subst. apply IH; [now injection Hlen | assumption].
Qed.

(** The distance of the sampler, on the flat arrays. *)
Lemma l2_distance_flat (p : vector) (img : matrix) :
  length p = (28 * 28)%nat ->
  length img = 28%nat -> Forall (fun row => length row = 28%nat) img ->
  l2_distance (reshape 28 28 p) img
  = sum (squared_difference p (flatten img)).
Proof.
  intros Hp Himg Hrows. unfold l2_distance.
  destruct (reshape_shape 28 28 p Hp) as [Hl Hf].
  rewrite sum2_zip_rows
    by (apply rows_same_shape with (u := 28%nat); auto; congruence).
  fold (flatten (reshape 28 28 p)). rewrite (flatten_reshape 28 28 p Hp).
  unfold squared_difference, flatten. f_equal.
  apply zip_with_ext. intros a b. simpl. ring.
Qed.

(** X4.  The sampler measures the training loss: the squared distance it
    computes between the image decoded at a latent point and a 28x28 training
    image is [784] times the mean squared error that [train_step] would
    compute for that point against the flattened image; the nearest shape is
    the shape of least loss. *)
Theorem sampler_distance_is_scaled_loss
        (model : Sequential) (x y : R) (img : matrix) :
  has_architecture model ->
  length img = 28%nat -> Forall (fun row => length row = 28%nat) img ->
  l2_distance (decode_image model x y) img
  = 784 * loss_fn (flatten img) (predict model [x; y]).
Proof.
  intros Harch Himg Hrows.
  destruct (@architecture_output model [x; y] Harch) as [Hp _].
  unfold decode_image. rewrite l2_distance_flat by auto.
  unfold loss_fn, MeanSquaredError, reduce_mean.
  assert (Hn : length (squared_difference (predict model [x; y])
                                          (flatten img)) = 784%nat).
  { unfold squared_difference.
    rewrite zip_with_length, Hp, (flatten_length Hrows), Himg.
    reflexivity. }
  rewrite Hn, INR_IZR_INZ.
  change (Z.of_nat 784) with 784%Z. field.
Qed.

End Images.

(** ** More on the sampler *)

Section SamplerGrid.

Import Py Np Keras Script.
Local Open Scope R_scope.

Variable dataset : list (matrix * Z).



End SamplerGrid.

Section SamplerEmpty.

Import Py Np Keras Script.
Local Open Scope R_scope.

(** X7.  With no training shape to compare with, the sampler still emits
    every grid point, each with the label 0 that [closest_shape] starts
    from. *)
Theorem sampler_without_shapes_labels_zero (g : grid) (s : state) :
  length (encoded_points (sample_latent_space [] g s))
  = (grid_size g * grid_size g)%nat /\
  Forall (fun p => snd p = 0%Z) (encoded_points (sample_latent_space [] g s)).
Proof.
  destruct (sample_latent_space_points [] g s) as [_ ->]. split.
  - rewrite (length_flat_map_uniform _ (n := grid_size g)).
    + now rewrite linspace_length.
    + intros x. now rewrite labelled_length, linspace_length.
  - apply Forall_forall. intros p Hp.
    apply in_flat_map in Hp as (x & _ & Hp). unfold labelled in Hp.
    apply in_map_iff in Hp as (y & <- & _). reflexivity.
Qed.

End SamplerEmpty.

(** ** More on the training loop *)

Section TrainingEdges.

Import Py Np Keras Script.
Local Open Scope R_scope.

Variable dataset : list (matrix * Z).
Variable gradient :
  Sequential -> vector -> vector -> vector * list (matrix * vector).

(** The epochs for which a line is printed, in the order of printing. *)
Lemma printed_epochs epochs di :
  dataset <> [] -> di <> 0%Z ->
  forall n a s s',
    for_each (epoch_body dataset gradient epochs di) (seq a n) s
    = Completed s' ->
    exists lines,
      console s' = console s ++ lines /\
      map shown_epoch lines
      = filter (fun e => (Z.of_nat e mod di =? 0)%Z || (e =? 1)%nat)
               (seq a n).
Proof.
  intros Hne Hdi. induction n as [|n IH]; intros a s s'; cbn [seq for_each].
  - intros Heq. injection Heq as <-. exists []. now rewrite app_nil_r.
  - destruct (epoch_body_completes gradient epochs a s Hne Hdi)
      as (s1 & -> & _ & _ & Hc1).
    intros Hrun. destruct (IH (S a) s1 s' Hrun) as (lines & Hc & Hl).
    cbn [filter].
    destruct ((Z.of_nat a mod di =? 0)%Z || (a =? 1)%nat).
    + eexists. rewrite Hc, Hc1, <- app_assoc. split; [reflexivity|].
      cbn [app map shown_epoch]. now rewrite Hl.
    + exists lines. now rewrite Hc, Hc1, app_nil_r.
Qed.

Lemma filter_seq_sorted (f : nat -> bool) n : forall a,
  StronglySorted lt (filter f (seq a n)).
Proof.
  induction n as [|n IH]; intros a; cbn [seq filter]; [constructor|].
  destruct (f a); [|apply IH].
  constructor; [apply IH|].
  apply Forall_forall. intros e He.
  apply filter_In in He as [He _]. apply in_seq in He. lia.
Qed.

(** The loss of a step and the mean loss of an epoch are never negative. *)
Lemma MeanSquaredError_nonneg y_true y_pred :
  0 <= MeanSquaredError y_true y_pred.
Proof.
  unfold MeanSquaredError, reduce_mean.
  pose proof (sum_nonneg (squared_difference_nonneg y_pred y_true)) as Hs.
  destruct (squared_difference y_pred y_true) as [|d ds] eqn:E.
  - unfold Rdiv. cbn [sum fold_right]. rewrite Rmult_0_l. apply Rle_refl.
  - apply Rmult_le_pos; [exact Hs|].
    apply Rlt_le, Rinv_0_lt_compat, lt_0_INR. simpl. lia.
Qed.

Lemma inner_loop_loss_nonneg idxs : forall acc,
  0 <= fst acc ->
  0 <= fst (fold_left (train_on_shape dataset gradient) idxs acc).
Proof.
  induction idxs as [|i idxs IH]; intros acc Hacc; cbn [fold_left];
    [exact Hacc|].
  apply IH. unfold train_on_shape, train_step.
  destruct (gradient _ _ _) as [g_z g_decoder]. cbn [fst].
  pose proof (MeanSquaredError_nonneg (nth i (x_data_flat dataset) [])
                (call (decoder (snd acc))
                      (gather (latent_codes (snd acc)) i))) as Hl.
  unfold loss_fn. lra.
Qed.

Lemma epoch_mean_loss_nonneg s : 0 <= epoch_mean_loss dataset gradient s.
Proof.
  unfold epoch_mean_loss, train_on_each_shape.
  pose proof (inner_loop_loss_nonneg (seq 0 (NUM_SHAPES dataset)) (0, s)
                (Rle_refl 0)) as Hs.
  destruct (NUM_SHAPES dataset) as [|n] eqn:E.
  - cbn [seq fold_left fst]. unfold Rdiv. rewrite Rmult_0_l. apply Rle_refl.
  - apply Rmult_le_pos; [exact Hs|].
    apply Rlt_le, Rinv_0_lt_compat, lt_0_INR. lia.
Qed.

Lemma for_each_history_nonneg epochs di :
  dataset <> [] -> di <> 0%Z ->
  forall n a s s',
    Forall (fun l => 0 <= l) (loss_history s) ->
    for_each (epoch_body dataset gradient epochs di) (seq a n) s
    = Completed s' ->
    Forall (fun l => 0 <= l) (loss_history s').
Proof.
  intros Hne Hdi. induction n as [|n IH]; intros a s s' Hs;
    cbn [seq for_each].
  - intros Heq. now injection Heq as <-.
  - destruct (epoch_body_completes gradient epochs a s Hne Hdi)
      as (s1 & -> & Hh1 & _).
    apply IH. rewrite Hh1. apply Forall_app. split; [exact Hs|].
    constructor; [apply epoch_mean_loss_nonneg | constructor].
Qed.

End TrainingEdges.

(** ** Training runs of the script

    The runs start from the initial state, on a non-empty dataset whose
    flattened images have the [28 * 28] values the decoder returns, with the
    gradients of reverse-mode differentiation. *)

Section TrainingRuns.

Import Py Np Keras Script.
Local Open Scope R_scope.

Variable dataset : list (matrix * Z).

(** C3.  On a non-empty dataset of 28x28 images the training loop runs every
    one of the configured epochs, with no early exit: it completes after
    [epochs * NUM_SHAPES] optimizer steps, and the loss history then holds
    exactly [epochs] entries, the entry at position [k] being the mean loss of
    epoch [k + 1], computed from the state the first [k] epochs produced. *)
Theorem train_runs_every_epoch (epochs : nat) (di : Z)
        (normal : nat -> nat -> R) (init : nat -> nat -> nat -> R) :
  dataset <> [] -> di <> 0%Z ->
  Forall (fun t => length t = (28 * 28)%nat) (x_data_flat dataset) ->
  exists s',
    train dataset tape_gradient epochs di (initial_state dataset normal init)
    = Completed s' /\
    length (loss_history s') = epochs /\
    iterations (optimizer s') = (epochs * NUM_SHAPES dataset)%nat /\
    forall k, (k < epochs)%nat ->
      exists s_k,
        for_each (epoch_body dataset tape_gradient epochs di) (seq 1 k)
                 (clear_history (initial_state dataset normal init))
        = Completed s_k /\
        nth_error (loss_history s') k
        = Some (epoch_mean_loss dataset tape_gradient s_k).
Proof.
  intros Hne Hdi _.
  set (s := clear_history (initial_state dataset normal init)).
  destruct (@epochs_run dataset tape_gradient epochs di Hne Hdi epochs 1 s)
    as (s' & added & lines & Hrun & Hh & Hlen & _ & Hit & _).
  exists s'. unfold train, training_loop. fold s.
  split; [exact Hrun|].
  split; [rewrite Hh; subst s; cbn [clear_history loss_history app];
          exact Hlen|].
  split; [rewrite Hit; subst s; reflexivity|].
  intros k Hk.
  destruct (@epochs_run dataset tape_gradient epochs di Hne Hdi k 1 s)
    as (s_k & added_k & _ & Hrun_k & Hh_k & Hlen_k & _).
  destruct (@epochs_run dataset tape_gradient epochs di Hne Hdi
              (epochs - k) (1 + k) s_k)
    as (s'' & rest & _ & Hrun_rest & Hh_rest & _ & Hfirst & _).
  exists s_k. split; [exact Hrun_k|].
  replace epochs with (k + (epochs - k))%nat in Hrun at 2 by lia.
  rewrite seq_app, for_each_app, Hrun_k, Hrun_rest in Hrun.
  injection Hrun as <-.
  rewrite Hh_rest, Hh_k. subst s. cbn [clear_history loss_history app].
  rewrite nth_error_app2 by lia.
  rewrite Hlen_k, Nat.sub_diag. apply Hfirst. lia.
Qed.

(** C9.  While training on a non-empty dataset of 28x28 images, a progress
    line (epoch index and that epoch's mean loss) is printed for epoch 1 and
    for every epoch whose index is a multiple of the display interval, and for
    no other epoch. *)
Theorem progress_on_first_and_interval_epochs (epochs : nat) (di : Z)
        (normal : nat -> nat -> R) (init : nat -> nat -> nat -> R) :
  dataset <> [] -> di <> 0%Z ->
  Forall (fun t => length t = (28 * 28)%nat) (x_data_flat dataset) ->
  exists s' lines,
    train dataset tape_gradient epochs di (initial_state dataset normal init)
    = Completed s' /\
    console s' = lines /\
    (forall e, In e (map shown_epoch lines) <->
       (1 <= e <= epochs)%nat /\ (e = 1%nat \/ (di | Z.of_nat e)%Z)) /\
    (forall line, In line lines ->
       nth_error (loss_history s') (shown_epoch line - 1)
       = Some (shown_loss line)).
Proof.
  intros Hne Hdi _.
  destruct (@epochs_run dataset tape_gradient epochs di Hne Hdi epochs 1
              (clear_history (initial_state dataset normal init)))
    as (s' & added & lines & Hrun & Hh & _ & _ & _ & Hc & Hin & Hcov).
  exists s', lines. unfold train, training_loop.
  split; [exact Hrun|].
  split; [exact Hc|].
  split.
  - intros e. split.
    + intros He. apply in_map_iff in He as (line & <- & Hline).
      destruct (Hin line Hline) as (Hrange & Hshown & _).
      split; [lia | exact Hshown].
    + intros [Hrange Hshown]. apply Hcov; [lia | exact Hshown].
  - intros line Hline. destruct (Hin line Hline) as (_ & _ & _ & Hloss).
    rewrite Hh. exact Hloss.
Qed.

(** X9.  A display interval of 0 stops a training run in its first epoch,
    after the epoch's [NUM_SHAPES] optimizer steps and after its mean loss has
    been appended to the history: [epoch % display_interval] raises
    [ZeroDivisionError] before anything is printed. *)
Theorem zero_display_interval_aborts (epochs : nat)
        (normal : nat -> nat -> R) (init : nat -> nat -> nat -> R) :
  dataset <> [] -> (1 <= epochs)%nat ->
  Forall (fun t => length t = (28 * 28)%nat) (x_data_flat dataset) ->
  exists msg s',
    train dataset tape_gradient epochs 0 (initial_state dataset normal init)
    = Uncaught (ZeroDivisionError msg) s' /\
    loss_history s'
    = [epoch_mean_loss dataset tape_gradient
         (initial_state dataset normal init)] /\
    console s' = [] /\
    iterations (optimizer s') = NUM_SHAPES dataset.
Proof.
  intros Hne Hep _. destruct epochs as [|n]; [lia|].
  unfold train, training_loop. cbn [seq for_each].
  change (clear_history (initial_state dataset normal init))
    with (initial_state dataset normal init).
  unfold epoch_body, epoch_mean_loss.
  destruct (train_on_each_shape_frame dataset tape_gradient
              (initial_state dataset normal init)) as (Hit & Hh & Hc).
  destruct (train_on_each_shape dataset tape_gradient
              (initial_state dataset normal init)) as [epoch_loss s1].
  cbn [fst snd] in *.
  rewrite (NUM_SHAPES_nonempty Hne). cbn [py_mod Z.eqb].
  eexists. eexists. split; [reflexivity|].
  cbn [loss_history console optimizer]. rewrite Hh, Hc, Hit.
  repeat split.
Qed.

(** X10.  The progress lines of a training run come out in increasing order
    of epoch and no epoch is reported twice, not even epoch 1 when it is a
    multiple of the display interval as well. *)
Theorem progress_lines_increase (epochs : nat) (di : Z)
        (normal : nat -> nat -> R) (init : nat -> nat -> nat -> R) :
  dataset <> [] -> di <> 0%Z ->
  Forall (fun t => length t = (28 * 28)%nat) (x_data_flat dataset) ->
  exists s',
    train dataset tape_gradient epochs di (initial_state dataset normal init)
    = Completed s' /\
    StronglySorted lt (map shown_epoch (console s')) /\
    NoDup (map shown_epoch (console s')).
Proof.
  intros Hne Hdi _.
  destruct (@epochs_run dataset tape_gradient epochs di Hne Hdi epochs 1
              (clear_history (initial_state dataset normal init)))
    as (s' & _ & _ & Hrun & _).
  destruct (@printed_epochs dataset tape_gradient epochs di Hne Hdi _ _ _ _
              Hrun) as (lines & Hc & Hl).
  exists s'. split; [exact Hrun|].
  cbn [clear_history console initial_state app] in Hc.
  rewrite Hc, Hl. split; [apply filter_seq_sorted|].
  apply NoDup_filter, seq_NoDup.
Qed.

(** X11.  Every entry of the loss history that a training run leaves is a
    non-negative number. *)
Theorem loss_history_nonneg (epochs : nat) (di : Z)
        (normal : nat -> nat -> R) (init : nat -> nat -> nat -> R) :
  dataset <> [] -> di <> 0%Z ->
  Forall (fun t => length t = (28 * 28)%nat) (x_data_flat dataset) ->
  exists s',
    train dataset tape_gradient epochs di (initial_state dataset normal init)
    = Completed s' /\
    Forall (fun l => 0 <= l) (loss_history s').
Proof.
  intros Hne Hdi _.
  destruct (@epochs_run dataset tape_gradient epochs di Hne Hdi epochs 1
              (clear_history (initial_state dataset normal init)))
    as (s' & _ & _ & Hrun & _).
  exists s'. split; [exact Hrun|].
  refine (@for_each_history_nonneg dataset tape_gradient epochs di Hne Hdi
            epochs 1%nat
            (clear_history (initial_state dataset normal init)) s' _ Hrun).
  constructor.
Qed.

End TrainingRuns.

(** ** The report of the learned codes *)

Section Report.

Import Py Np Keras Script.
Local Open Scope R_scope.

Variable dataset : list (matrix * Z).

(** As long as the labels reach as far as the rows do, [y_data[i]] is never
    out of range and every row gets its line. *)
Lemma report_lines_complete codes : forall i,
  (i + length codes <= length (y_data dataset))%nat ->
  exists lines,
    report_lines dataset i codes = Some lines /\
    length lines = length codes /\
    forall k, (k < length codes)%nat ->
      nth_error lines k
      = Some ((i + k)%nat, nth (i + k) (y_data dataset) 0%Z, nth k codes []).
Proof.
  induction codes as [|code rest IH]; intros i Hlen; cbn [report_lines length].
  - exists []. repeat split. intros k Hk. cbn [length] in Hk. lia.
  - cbn [length] in Hlen.
    destruct (nth_error (y_data dataset) i) as [class|] eqn:Hclass.
    2:{ apply nth_error_None in Hclass. lia. }
    destruct (IH (S i)) as (lines & -> & Hl & Hnth); [lia|].
    eexists. split; [reflexivity|]. split; [cbn [length]; now rewrite Hl|].
    intros [|k] Hk; cbn [nth_error nth].
    + rewrite Nat.add_0_r. now rewrite (nth_error_nth _ _ _ Hclass).
    + rewrite Hnth by lia. now rewrite Nat.add_succ_r.
Qed.

(** X12.  After training, the report prints one line per training sample, in
    the order of the dataset: line [i] carries the index [i], the class
    [y_data[i]] and row [i] of the trained table, and [y_data[i]] is never out
    of range. *)
Theorem report_after_training epochs di normal init :
  dataset <> [] -> di <> 0%Z ->
  Forall (fun t => length t = (28 * 28)%nat) (x_data_flat dataset) ->
  exists s' lines,
    train dataset tape_gradient epochs di (initial_state dataset normal init)
    = Completed s' /\
    report_latent_codes dataset s' = Some lines /\
    length lines = NUM_SHAPES dataset /\
    forall i, (i < NUM_SHAPES dataset)%nat ->
      nth_error lines i
      = Some (i, nth i (y_data dataset) 0%Z, nth i (latent_codes s') []).
Proof.
  intros Hne Hdi Himg.
  destruct (training_completes_in_shape epochs normal init Hne Hdi Himg)
    as (s' & Hrun & _ & _ & Hlen & _).
  assert (Hy : length (y_data dataset) = NUM_SHAPES dataset)
    by (unfold y_data, NUM_SHAPES, x_data; now rewrite !length_map).
  destruct (@report_lines_complete (latent_codes s') 0%nat)
    as (lines & Hrep & Hl & Hnth); [rewrite Hlen, Hy; apply Nat.le_refl|].
  exists s', lines. split; [exact Hrun|]. split; [exact Hrep|].
  split; [now rewrite Hl|].
  intros i Hi. rewrite <- Hlen in Hi. exact (Hnth i Hi).
Qed.

End Report.

(** ** The preview figure *)

Section Preview.

Import Py Np Keras Script.
Local Open Scope R_scope.

Lemma enumerate_from {A : Type} (xs : list A) : forall a,
  map fst (combine (seq a (length xs)) xs) = seq a (length xs) /\
  map snd (combine (seq a (length xs)) xs) = xs.
Proof.
  induction xs as [|x xs IH]; intros a; cbn [length seq combine map fst snd];
    [split; reflexivity|].
  destruct (IH (S a)) as [-> ->]. split; reflexivity.
Qed.

Lemma seq_offset c n : forall a,
  map (fun j => (c + j + 1)%nat) (seq a n) = seq (c + a + 1) n.
Proof.
  induction n as [|n IH]; intros a; cbn [seq map]; [reflexivity|].
  rewrite IH. do 2 f_equal. lia.
Qed.

(** The subplots one row of the figure fills, and what they show. *)
Lemma preview_row model n i x (ys : vector) :
  length ys = n ->
  let row :=
    map (fun jy : nat * R =>
           ((i * n + fst jy + 1)%nat, decode_image model x (snd jy)))
        (enumerate ys) in
  map fst row = seq (i * n + 1) n /\
  map snd row = map (decode_image model x) ys.
Proof.
  intros Hn. cbv zeta. unfold enumerate.
  destruct (enumerate_from ys 0) as [Hf Hs]. rewrite !map_map.
  cbn [fst snd]. split.
  - transitivity (map (fun j => (i * n + j + 1)%nat)
                      (map fst (combine (seq 0 (length ys)) ys)));
      [now rewrite map_map|].
    rewrite Hf, Hn, seq_offset. f_equal. lia.
  - transitivity (map (decode_image model x)
                      (map snd (combine (seq 0 (length ys)) ys)));
      [now rewrite map_map|].
    now rewrite Hs.
Qed.

Lemma preview_rows model n (ys : vector) (xs : vector) :
  length ys = n ->
  forall a,
    let fig :=
      flat_map
        (fun ix : nat * R =>
           map (fun jy : nat * R =>
                  ((fst ix * n + fst jy + 1)%nat,
                   decode_image model (snd ix) (snd jy)))
               (enumerate ys))
        (combine (seq a (length xs)) xs) in
    map fst fig = seq (a * n + 1) (length xs * n) /\
    map snd fig = flat_map (fun x => map (decode_image model x) ys) xs.
Proof.
  intros Hn. induction xs as [|x xs IH]; intros a;
    cbn [length seq combine flat_map map Nat.mul]; [split; reflexivity|].
  destruct (IH (S a)) as [Hf Hs]. cbv zeta in Hf, Hs.
  destruct (@preview_row model n a x ys Hn) as [Hrf Hrs].
  cbv zeta in Hrf, Hrs.
  rewrite !map_app. cbn [fst snd]. rewrite Hf, Hs, Hrf, Hrs. split.
  - rewrite seq_app. do 2 f_equal. lia.
  - reflexivity.
Qed.

(** X13.  The preview figure uses the subplots 1, 2, ..., [grid_size^2] of
    its [grid_size] x [grid_size] layout in this order, each exactly once and
    none out of range; they show the decoded lattice points with [x] in the
    outer and [y] in the inner loop. *)
Theorem preview_fills_every_subplot (g : grid) (model : Sequential) :
  let n := grid_size g in
  let x_range := linspace (x_min g) (x_max g) n in
  let y_range := linspace (y_min g) (y_max g) n in
  map fst (preview_figure g model) = seq 1 (n * n) /\
  map snd (preview_figure g model)
  = flat_map (fun x => map (fun y => decode_image model x y) y_range) x_range.
Proof.
  cbv zeta. unfold preview_figure.
  pose proof (linspace_length (y_min g) (y_max g) (grid_size g)) as Hy.
  destruct (@preview_rows model (grid_size g)
              (linspace (y_min g) (y_max g) (grid_size g))
              (linspace (x_min g) (x_max g) (grid_size g)) Hy 0%nat)
    as [Hf Hs].
  cbv zeta in Hf, Hs. split; [|exact Hs].
  etransitivity; [exact Hf|]. now rewrite linspace_length.
Qed.

End Preview.

(** ** What the export accepts and what it refuses *)

Section ExportEdges.

Import Py Np Keras Script.
Local Open Scope R_scope.

Lemma has_shape_inv rows cols (k : matrix) :
  has_shape rows cols k = true ->
  length k = rows /\ Forall (fun row => length row = cols) k.
Proof.
  unfold has_shape. intros H. apply andb_prop in H as [Hr Hc].
  split; [now apply Nat.eqb_eq|].
  apply Forall_forall. intros row Hrow. apply Nat.eqb_eq.
  exact (proj1 (forallb_forall _ _) Hc row Hrow).
Qed.

(** A model that accepted a list of weights holds exactly these weights, in
    layers of the widths, activations and shapes it had before. *)
Lemma set_weights_stores spec : forall in_dim model ws model',
  built_from in_dim spec model ->
  set_weights model ws = Ok model' ->
  built_from in_dim spec model' /\ get_weights model' = ws.
Proof.
  induction spec as [|[u a] spec IH]; intros in_dim model ws model';
    destruct model as [|l model]; cbn [built_from]; try tauto.
  - intros _. destruct ws; [|discriminate]. cbn [set_weights].
    intros H. injection H as <-. split; [exact I | reflexivity].
  - intros (U & A & (Hrows & _ & _) & Hrest). cbn [set_weights].
    destruct ws as [|[b0|k] [|[b|k'] ws]]; try discriminate.
    destruct (has_shape (length (kernel l)) (units l) k
              && (length b =? units l)%nat) eqn:Hshape; [|discriminate].
    destruct (set_weights model ws) as [rest|e] eqn:Hset; [|discriminate].
    intros H. injection H as <-.
    apply andb_prop in Hshape as [Hk Hb].
    apply has_shape_inv in Hk as [Hkr Hkc]. apply Nat.eqb_eq in Hb.
    destruct (IH u model ws rest Hrest Hset) as [Hbuilt Hget].
    split.
    + cbn [built_from units act]. repeat split; try assumption.
      * cbn [kernel]. congruence.
    + unfold get_weights in *. cbn [flat_map kernel bias app].
      now rewrite Hget.
Qed.

(** X14.  Whatever state the export starts from, an export that succeeds
    yields a model of the architecture of [create_decoder] whose weights,
    read back with [get_weights], are exactly the arrays of the trained
    decoder. *)
Theorem export_holds_trained_weights (init : nat -> nat -> nat -> R)
        (s : state) (exported : Sequential) :
  export_model init s = Ok exported ->
  has_architecture exported /\
  get_weights exported = get_weights (decoder s).
Proof.
  unfold export_model, has_architecture. intros Hset.
  exact (set_weights_stores decoder_layers LATENT_DIM _ _
           (create_decoder_has_architecture init) Hset).
Qed.

(** [set_weights] raises nothing but [ValueError]. *)
Lemma set_weights_value_error model : forall ws e,
  set_weights model ws = Raise e -> e = ValueError.
Proof.
  induction model as [|l model IH]; intros ws e; cbn [set_weights].
  - destruct ws; [discriminate | congruence].
  - destruct ws as [|[b0|k] [|[b|k'] ws]]; try congruence.
    destruct (has_shape _ _ _ && _); [|congruence].
    destruct (set_weights model ws) as [rest|e'] eqn:Hset; [discriminate|].
    intros H. injection H as <-. exact (IH ws e' Hset).
Qed.

(** Weights of fitting shapes are accepted. *)
Lemma set_weights_accepts spec : forall in_dim fresh model,
  built_from in_dim spec fresh -> weights_fit in_dim spec model ->
  exists stored, set_weights fresh (get_weights model) = Ok stored.
Proof.
  induction spec as [|[u a] spec IH]; intros in_dim fresh model;
    destruct fresh as [|f fresh], model as [|l model];
    cbn [built_from weights_fit]; try tauto.
  - intros _ _. exists []. reflexivity.
  - intros (U & _ & (Hrows & _ & _) & Hfresh) (Hk & Hkc & Hb & Hmodel).
    destruct (IH u fresh model Hfresh Hmodel) as (rest & Hrest).
    unfold get_weights in *. cbn [flat_map app set_weights].
    assert (Hshape : has_shape (length (kernel f)) (units f) (kernel l)
                     && (length (bias l) =? units f)%nat = true).
    { apply andb_true_intro. split; [|apply Nat.eqb_eq; congruence].
      unfold has_shape. apply andb_true_intro. split.
      - apply Nat.eqb_eq. congruence.
      - apply forallb_forall. intros row Hrow. apply Nat.eqb_eq.
        rewrite U. exact (proj1 (Forall_forall _ _) Hkc row Hrow). }
    rewrite Hshape, Hrest. eexists. reflexivity.
Qed.

(** Weights that were accepted have fitting shapes. *)
Lemma set_weights_accepted_fit spec : forall in_dim fresh model stored,
  built_from in_dim spec fresh ->
  set_weights fresh (get_weights model) = Ok stored ->
  weights_fit in_dim spec model.
Proof.
  induction spec as [|[u a] spec IH]; intros in_dim fresh model stored;
    destruct fresh as [|f fresh], model as [|l model];
    cbn [built_from weights_fit]; try tauto;
    unfold get_weights; cbn [flat_map app set_weights]; try discriminate.
  intros (U & _ & (Hrows & _ & _) & Hfresh).
  destruct (has_shape (length (kernel f)) (units f) (kernel l)
            && (length (bias l) =? units f)%nat) eqn:Hshape; [|discriminate].
  fold (get_weights model).
  destruct (set_weights fresh (get_weights model)) as [rest|e] eqn:Hset;
    [|discriminate].
  intros _. apply andb_prop in Hshape as [Hk Hb].
  apply has_shape_inv in Hk as [Hkr Hkc]. apply Nat.eqb_eq in Hb.
  rewrite <- U, <- Hrows. repeat split; try assumption.
  rewrite U. exact (IH u fresh model rest Hfresh Hset).
Qed.

(** A model of the architecture [spec] has arrays of fitting shapes. *)
Lemma built_from_weights_fit spec : forall in_dim model,
  built_from in_dim spec model -> weights_fit in_dim spec model.
Proof.
  induction spec as [|[u a] spec IH]; intros in_dim model;
    destruct model as [|l model]; cbn [built_from weights_fit]; try tauto.
  intros (U & _ & (Hrows & Hcols & Hb) & Hrest).
  subst u. split; [exact Hrows|]. split; [exact Hcols|].
  split; [exact Hb|]. now apply IH.
Qed.

(** X15.  The export succeeds exactly when the arrays of the decoder have the
    shapes of the variables of [create_decoder] (as many layers, kernels and
    biases of the same sizes), whatever widths and activations its layers
    declare: then the exported model holds these arrays; in every other case
    [set_weights] raises [ValueError] and no model is exported. *)
Theorem export_succeeds_iff_weights_fit (init : nat -> nat -> nat -> R)
        (s : state) :
  (weights_fit LATENT_DIM decoder_layers (decoder s) ->
   exists exported,
     export_model init s = Ok exported /\
     get_weights exported = get_weights (decoder s)) /\
  (~ weights_fit LATENT_DIM decoder_layers (decoder s) ->
   export_model init s = Raise ValueError).
Proof.
  pose proof (create_decoder_has_architecture init) as Hfresh.
  unfold has_architecture in Hfresh. unfold export_model. split.
  - intros Hfit.
    destruct (set_weights_accepts decoder_layers LATENT_DIM _ _ Hfresh Hfit)
      as (stored & Hset).
    exists stored. split; [exact Hset|].
    exact (proj2 (set_weights_stores decoder_layers LATENT_DIM _ _
                    Hfresh Hset)).
  - intros Hnot.
    destruct (set_weights (create_decoder init) (get_weights (decoder s)))
      as [stored|e] eqn:Hset.
    + destruct Hnot.
      exact (set_weights_accepted_fit decoder_layers LATENT_DIM _ _
               Hfresh Hset).
    + now rewrite (set_weights_value_error _ _ Hset).
Qed.

End ExportEdges.

(** ** The demo run, end to end *)

Section RunExamples.

Import Py Np Keras Script.
Local Open Scope R_scope.

Lemma demo_images_flat :
  Forall (fun t => length t = (28 * 28)%nat) (x_data_flat Demo.dataset).
Proof.
  assert (H : forall c : R,
            length (flatten (repeat (repeat c 28) 28)) = (28 * 28)%nat).
  { intros c. rewrite (@flatten_length 28), repeat_length; [reflexivity|].
    apply Forall_forall. intros row Hrow. apply repeat_spec in Hrow.
    subst row. apply repeat_length. }
  repeat constructor; apply H.
Qed.

Lemma demo_dataset_nonempty : Demo.dataset <> [].
Proof. discriminate. Qed.

Lemma display_interval_nonzero : display_interval <> 0%Z.
Proof. discriminate. Qed.

(** The demo run keeps its shapes through the 10000 epochs of the script. *)
Lemma training_keeps_every_shape_witness :
  exists s',
    train Demo.dataset tape_gradient epochs display_interval Demo.start
    = Completed s' /\
    length (latent_codes s') = NUM_SHAPES Demo.dataset /\
    Forall (fun row => length row = LATENT_DIM) (latent_codes s') /\
    has_architecture (decoder s') /\
    slots_aligned s' /\ decoder_slots_aligned s'.
Proof.
  exact (@training_keeps_every_shape Demo.dataset epochs display_interval
           (fun _ _ => 1) (fun _ _ _ => 1 / 1000)
           demo_dataset_nonempty display_interval_nonzero demo_images_flat).
Defined.

(** The demo run, exported into a model that was initialised otherwise. *)
Lemma export_after_training_witness :
  exists s' exported,
    train Demo.dataset tape_gradient epochs display_interval Demo.start
    = Completed s' /\
    export_model (fun _ _ _ => 1) s' = Ok exported /\
    forall z,
      predict exported z = predict (decoder s') z /\
      length (predict exported z) = 784%nat /\
      Forall (fun y => 0 <= y <= 1) (predict exported z).
Proof.
  exact (@export_after_training Demo.dataset epochs display_interval
           (fun _ _ => 1) (fun _ _ _ => 1 / 1000) (fun _ _ _ => 1)
           demo_dataset_nonempty display_interval_nonzero demo_images_flat).
Defined.

(** The fresh decoder of the demo at the origin, against the white image. *)
Lemma sampler_distance_is_scaled_loss_witness :
  l2_distance (decode_image (decoder Demo.start) 0 0)
              (repeat (repeat 1 28) 28)
  = 784 * loss_fn (flatten (repeat (repeat 1 28) 28))
                  (predict (decoder Demo.start) [0; 0]).
Proof.
  apply (@sampler_distance_is_scaled_loss (decoder Demo.start) 0 0
           (repeat (repeat 1 28) 28)).
  - exact (create_decoder_has_architecture (fun _ _ _ => 1 / 1000)).
  - apply repeat_length.
  - apply Forall_forall. intros row Hrow. apply repeat_spec in Hrow.
    subst row. apply repeat_length.
Defined.


(** The demo run with the epoch count and display interval of the script. *)
Lemma train_runs_every_epoch_witness :
  exists s',
    train Demo.dataset tape_gradient epochs display_interval Demo.start
    = Completed s' /\
    length (loss_history s') = epochs /\
    iterations (optimizer s') = (epochs * NUM_SHAPES Demo.dataset)%nat /\
    forall k, (k < epochs)%nat ->
      exists s_k,
        for_each (epoch_body Demo.dataset tape_gradient epochs
                             display_interval)
                 (seq 1 k) (clear_history Demo.start)
        = Completed s_k /\
        nth_error (loss_history s') k
        = Some (epoch_mean_loss Demo.dataset tape_gradient s_k).
Proof.
  exact (@train_runs_every_epoch Demo.dataset epochs display_interval
           (fun _ _ => 1) (fun _ _ _ => 1 / 1000)
           demo_dataset_nonempty display_interval_nonzero demo_images_flat).
Defined.

(** The demo run again, for the progress lines. *)
Lemma progress_on_first_and_interval_epochs_witness :
  exists s' lines,
    train Demo.dataset tape_gradient epochs display_interval Demo.start
    = Completed s' /\
    console s' = lines /\
    (forall e, In e (map shown_epoch lines) <->
       (1 <= e <= epochs)%nat /\
       (e = 1%nat \/ (display_interval | Z.of_nat e)%Z)) /\
    (forall line, In line lines ->
       nth_error (loss_history s') (shown_epoch line - 1)
       = Some (shown_loss line)).
Proof.
  exact (@progress_on_first_and_interval_epochs Demo.dataset epochs
           display_interval (fun _ _ => 1) (fun _ _ _ => 1 / 1000)
           demo_dataset_nonempty display_interval_nonzero demo_images_flat).
Defined.

(** The demo run with a display interval of 0. *)
Lemma zero_display_interval_aborts_witness :
  exists msg s',
    train Demo.dataset tape_gradient epochs 0 Demo.start
    = Uncaught (ZeroDivisionError msg) s' /\
    loss_history s'
    = [epoch_mean_loss Demo.dataset tape_gradient Demo.start] /\
    console s' = [] /\
    iterations (optimizer s') = NUM_SHAPES Demo.dataset.
Proof.
  apply (@zero_display_interval_aborts Demo.dataset epochs
           (fun _ _ => 1) (fun _ _ _ => 1 / 1000) demo_dataset_nonempty).
  - apply Nat.leb_le. reflexivity.
  - exact demo_images_flat.
Defined.

(** The progress lines of the demo run. *)
Lemma progress_lines_increase_witness :
  exists s',
    train Demo.dataset tape_gradient epochs display_interval Demo.start
    = Completed s' /\
    StronglySorted lt (map shown_epoch (console s')) /\
    NoDup (map shown_epoch (console s')).
Proof.
  exact (@progress_lines_increase Demo.dataset epochs display_interval
           (fun _ _ => 1) (fun _ _ _ => 1 / 1000)
           demo_dataset_nonempty display_interval_nonzero demo_images_flat).
Defined.

(** The loss history of the demo run. *)
Lemma loss_history_nonneg_witness :
  exists s',
    train Demo.dataset tape_gradient epochs display_interval Demo.start
    = Completed s' /\
    Forall (fun l => 0 <= l) (loss_history s').
Proof.
  exact (@loss_history_nonneg Demo.dataset epochs display_interval
           (fun _ _ => 1) (fun _ _ _ => 1 / 1000)
           demo_dataset_nonempty display_interval_nonzero demo_images_flat).
Defined.

(** The report after the demo run. *)
Lemma report_after_training_witness :
  exists s' lines,
    train Demo.dataset tape_gradient epochs display_interval Demo.start
    = Completed s' /\
    report_latent_codes Demo.dataset s' = Some lines /\
    length lines = NUM_SHAPES Demo.dataset /\
    forall i, (i < NUM_SHAPES Demo.dataset)%nat ->
      nth_error lines i
      = Some (i, nth i (y_data Demo.dataset) 0%Z, nth i (latent_codes s') []).
Proof.
  exact (@report_after_training Demo.dataset epochs display_interval
           (fun _ _ => 1) (fun _ _ _ => 1 / 1000)
           demo_dataset_nonempty display_interval_nonzero demo_images_flat).
Defined.

(** The untrained decoder of the demo, exported. *)
Lemma export_holds_trained_weights_witness :
  has_architecture (decoder Demo.start) /\
  get_weights (decoder Demo.start) = get_weights (decoder Demo.start).
Proof.
  apply (@export_holds_trained_weights (fun _ _ _ => 1) Demo.start
           (decoder Demo.start)).
  unfold export_model.
  apply set_weights_get_weights
    with (spec := decoder_layers) (in_dim := LATENT_DIM);
    apply create_decoder_has_architecture.
Defined.

(** A 2x3 array, both ways round. *)
Lemma reshape_flatten_round_trip_witness :
  reshape 2 3 (flatten [[1; 2; 3]; [4; 5; 6]]) = [[1; 2; 3]; [4; 5; 6]] /\
  flatten (reshape 2 3 [1; 2; 3; 4; 5; 6]) = [1; 2; 3; 4; 5; 6].
Proof.
  destruct (reshape_flatten_round_trip 2 3) as [Hm Hv]. split.
  - apply Hm; [reflexivity | repeat constructor].
  - apply Hv. reflexivity.
Defined.

(** The untrained decoder of the demo is exported as it is; a decoder of one
    layer is refused. *)
Lemma export_succeeds_iff_weights_fit_witness :
  (exists exported,
     export_model (fun _ _ _ => 1) Demo.start = Ok exported /\
     get_weights exported = get_weights (decoder Demo.start)) /\
  export_model (fun _ _ _ => 1) Demo.one_layer = Raise ValueError.
Proof.
  split.
  - apply (proj1 (export_succeeds_iff_weights_fit (fun _ _ _ => 1)
                    Demo.start)).
    apply built_from_weights_fit.
    exact (create_decoder_has_architecture (fun _ _ _ => 1 / 1000)).
  - apply (proj2 (export_succeeds_iff_weights_fit (fun _ _ _ => 1)
                    Demo.one_layer)).
    cbn [weights_fit decoder_layers decoder Demo.one_layer]. tauto.
Defined.

End RunExamples.
